(** * ParameterStatistics: a training extension reporting parameter statistics

    Shallow embedding of
    [pytorch_pfn_extras/training/extensions/parameter_statistics.py].

    The extension walks the configured links, applies every registered
    statistic function to the flattened [data] and/or [grad] tensor of every
    named parameter, gathers the results in a flat dictionary keyed by
    [{prefix}{param_name}/{attr_name}/{function_name}], feeds the dictionary
    to a summary and, when its trigger fires, reports the summary's means and
    starts a new summary. *)

From Stdlib Require Import ssreflect Ascii Floats.SpecFloat.
From stdpp Require Import gmap strings list fin_maps pretty.

Set Default Proof Using "Type".
Global Open Scope general_if_scope.

(** * Exceptions

    Python code either returns or raises.  The only exceptions the extension
    can meet are an [AttributeError] (a [None] gradient has no [flatten], an
    object that is not a module has no [named_parameters]) and whatever a
    statistic function raises. *)

Inductive exn :=
  | AttributeError
  | FunctionError (msg : string).

Inductive result (A : Type) :=
  | Ok (a : A)
  | Raise (e : exn).
Arguments Ok {A} a.
Arguments Raise {A} e.

Global Instance result_ret : MRet result := λ A a, Ok a.
Global Instance result_bind : MBind result := λ A B f m,
  match m with
  | Ok a => f a
  | Raise e => Raise e
  end.

Global Instance result_fmap : FMap result := λ A B f m,
  match m with
  | Ok a => Ok (f a)
  | Raise e => Raise e
  end.

(** [for x in xs: s = body x s], stopping at the first exception. *)
Fixpoint for_each {A St : Type} (xs : list A) (body : A → St → result St)
    (s : St) : result St :=
  match xs with
  | [] => Ok s
  | x :: xs' => s' ← body x s; for_each xs' body s'
  end.

(** * Tensors and Python values *)

(** A tensor is a shape and its elements in row-major order.  The elements
    are IEEE floats; only their being NaN or not matters here. *)
Record tensor := Tensor { shape : list nat; elems : list spec_float }.

Definition is_nan (x : spec_float) : bool :=
  match x with
  | S754_nan => true
  | _ => false
  end.

Definition prod_list (l : list nat) : nat := foldr Nat.mul 1 l.

(** [t.numel()] *)
Definition numel (t : tensor) : nat := prod_list (shape t).

(** A tensor holds as many elements as its shape announces. *)
Definition tensor_wf (t : tensor) : Prop := length (elems t) = numel t.

(** [t.flatten()]: same elements, one dimension. *)
Definition flatten (t : tensor) : tensor :=
  {| shape := [numel t]; elems := elems t |}.

(** [torch.isnan(t).any()] *)
Definition isnan_any (t : tensor) : bool := existsb is_nan (elems t).

(** Iterating a tensor walks its first dimension: a tensor of shape
    [n :: rest] yields [n] tensors of shape [rest].  (A zero-dimensional
    tensor cannot be iterated; the extension only iterates tensors with more
    than one element, which have at least one dimension.) *)
Definition iter_tensor (t : tensor) : list tensor :=
  match shape t with
  | [] => []
  | n :: rest =>
      let w := prod_list rest in
      (λ i, {| shape := rest; elems := take w (drop (i * w) (elems t)) |})
        <$> seq 0 n
  end.

(** The values a statistic can be: a Python float, a tensor, or some other
    object holding several numbers (a tuple, a list, a NumPy array). *)
Inductive value :=
  | VFloat (x : spec_float)
  | VTensor (t : tensor)
  | VSeq (xs : list spec_float).

(** [float('nan')] *)
Definition float_nan : value := VFloat S754_nan.

(** * Parameters and links *)

(** A parameter: [data] is always a tensor, [grad] is a tensor or [None]. *)
Record parameter := mk_parameter { data : tensor; grad : option tensor }.

(** [getattr(param, attr_name)]; [None] stands for Python's [None]. *)
Definition getattr (param : parameter) (attr_name : string)
    : result (option tensor) :=
  if decide (attr_name = "data") then Ok (Some (data param))
  else if decide (attr_name = "grad") then Ok (grad param)
  else Raise AttributeError.

(** [obj.flatten()] on what [getattr] returned. *)
Definition obj_flatten (obj : option tensor) : result tensor :=
  match obj with
  | Some t => Ok (flatten t)
  | None => Raise AttributeError
  end.

(** A module is seen through what [named_parameters()] yields. *)
Definition module := list (string * parameter).

(** What sits in [self._links]: a module, or an object that is not one and
    has no [named_parameters] (an iterable of modules that is neither a
    list, nor a tuple, nor a module itself ends up there as a whole). *)
Inductive link :=
  | Link (m : module)
  | NotALink (items : list module).

Definition named_parameters (l : link) : result module :=
  match l with
  | Link m => Ok m
  | NotALink _ => Raise AttributeError
  end.

(** The [links] argument of the constructor: a module alone; a list or a
    tuple of modules; a module that is itself iterable over child modules (a
    [torch.nn.ModuleList], a [Sequential]), given by what its own
    [named_parameters()] yields and by the children it iterates over; or
    another iterable of modules (a generator, a set), which is no module. *)
Inductive links_arg :=
  | OneLink (m : module)
  | ListOf (ms : list module)
  | TupleOf (ms : list module)
  | IterableModule (m : module) (children : list module)
  | IterableOf (ms : list module).

(** * Python dictionaries with string keys

    The registry of statistic functions is iterated, so its insertion order
    is kept: a dictionary is an association list without duplicate keys. *)

Section pydict.
Context {V : Type}.

(** [d[name] = v]: overwrite in place, or append. *)
Fixpoint dict_setitem (d : list (string * V)) (name : string) (v : V)
    : list (string * V) :=
  match d with
  | [] => [(name, v)]
  | (k, w) :: d' =>
      if decide (k = name) then (k, v) :: d'
      else (k, w) :: dict_setitem d' name v
  end.

(** [dict(items)] *)
Definition dict (items : list (string * V)) : list (string * V) :=
  foldl (λ d kv, dict_setitem d kv.1 kv.2) [] items.

(** [d.get(name)] *)
Fixpoint dict_get (d : list (string * V)) (name : string) : option V :=
  match d with
  | [] => None
  | (k, w) :: d' => if decide (k = name) then Some w else dict_get d' name
  end.
End pydict.

(** A statistic function as the extension documents it: it takes the
    flattened tensor and returns a value or raises, and leaves its argument
    as it is.  Functions that write to their argument are the subject of
    [InPlace] below. *)
Definition stat_fn := tensor → result value.

(** The [statistics] argument of the constructor. *)
Inductive statistics_arg :=
  | StatNone
  | StatDefault
  | StatDict (items : list (string * stat_fn)).

(** * The collaborators: trigger, summary, reporter

    The modules [reporting] and [trigger] are not among the sources: the
    extension is verified over any summary and any trigger.  Their
    operations are taken to return: an exception of theirs would leave
    lines 161-165 as it is, and nothing below is about that case. *)

(** [reporting.DictSummary]: a fresh summary, [add] and [compute_mean]. *)
Class DictSummary (S : Type) := {
  new_summary : S;
  summary_add : S → gmap string value → S;
  compute_mean : S → gmap string value;
}.

(** [trigger_module]: [get_trigger] resolves a trigger specification into a
    stateful predicate over the manager. *)
Class TriggerModule (Spec T Mgr : Type) := {
  get_trigger : Spec → T;
  trigger_call : T → Mgr → bool * T;
}.

(** [torch]: the reductions the default statistics call, [torch.mean],
    [torch.std], [torch.min], [torch.max] and [(x == 0).sum()]. *)
Class Torch := {
  torch_mean : stat_fn;
  torch_std : stat_fn;
  torch_min : stat_fn;
  torch_max : stat_fn;
  torch_count_zeros : stat_fn;
}.

(** * The extension *)

Section extension.
Context {S Spec T Mgr : Type}.
Context `{!DictSummary S, !TriggerModule Spec T Mgr, !Torch}.

Definition _default_statistics : list (string * stat_fn) :=
  [("mean", torch_mean); ("std", torch_std); ("min", torch_min);
   ("max", torch_max); ("zeros", torch_count_zeros)].

(** The class attribute [default_statistics]. *)
Definition default_statistics : list (string * stat_fn) :=
  _default_statistics.

Record ParameterStatistics := {
  _links : list link;
  _statistics : list (string * stat_fn);
  _attrs : list string;
  _prefix : option string;
  _trigger : T;
  _summary : S;
  _skip_nan_params : bool;
}.

(** [links = links,] unless [links] is a list or a tuple. *)
Definition normalize_links (links : links_arg) : list link :=
  match links with
  | OneLink m => [Link m]
  | ListOf ms => Link <$> ms
  | TupleOf ms => Link <$> ms
  | IterableModule m _ => [Link m]
  | IterableOf ms => [NotALink ms]
  end.

(** [None] selects no statistics, ['default'] the default ones; the
    registry is a copy, [dict(statistics)]. *)
Definition select_statistics (statistics : statistics_arg)
    : list (string * stat_fn) :=
  match statistics with
  | StatNone => dict []
  | StatDefault => dict default_statistics
  | StatDict items => dict items
  end.

(** [attrs], lines 105-110. *)
Definition select_attrs (report_params report_grads : bool) : list string :=
  (if report_params then ["data"] else []) ++
  (if report_grads then ["grad"] else []).

(** [__init__] *)
Definition __init__ (links : links_arg) (statistics : statistics_arg)
    (report_params report_grads : bool) (prefix : option string)
    (trigger : Spec) (skip_nan_params : bool) : ParameterStatistics :=
  {| _links := normalize_links links;
     _statistics := select_statistics statistics;
     _attrs := select_attrs report_params report_grads;
     _prefix := prefix;
     _trigger := get_trigger trigger;
     _summary := new_summary;
     _skip_nan_params := skip_nan_params |}.

(** [report_key_template.format(...)] *)
Definition report_key_template (prefix param_name attr_name function_name
    : string) : string :=
  prefix +:+ param_name +:+ "/" +:+ attr_name +:+ "/" +:+ function_name.

(** [self._prefix + '/' if self._prefix else ''] *)
Definition prefix_arg (prefix : option string) : string :=
  match prefix with
  | Some p => if decide (p = "") then "" else p +:+ "/"
  | None => ""
  end.

(** ['{}/{}'.format(key, i)] *)
Definition indexed_key (key : string) (i : nat) : string :=
  key +:+ "/" +:+ pretty i.

(** [{'{}/{}'.format(key, i): v for i, v in enumerate(value)}] *)
Definition indexed_items (key : string) (t : tensor)
    : list (string * value) :=
  imap (λ i v, (indexed_key key i, VTensor v)) (iter_tensor t).

(** [statistics.update(items)] *)
Definition dict_update (statistics : gmap string value)
    (items : list (string * value)) : gmap string value :=
  foldl (λ d kv, <[kv.1 := kv.2]> d) statistics items.

(** [isinstance(value, torch.Tensor) and value.numel() > 1] *)
Definition is_multi (v : value) : bool :=
  match v with
  | VTensor t => bool_decide (1 < numel t)
  | _ => false
  end.

(** Lines 152-159: store [value] under [key], or its rows under indexed
    keys. *)
Definition store (key : string) (v : value)
    (statistics : gmap string value) : gmap string value :=
  match v with
  | VTensor t =>
      if bool_decide (1 < numel t)
      then dict_update statistics (indexed_items key t)
      else <[key := v]> statistics
  | _ => <[key := v]> statistics
  end.

(** The state of one collection pass: the dictionary under construction
    and the applications of statistic functions made so far. *)
Record pass := {
  statistics : gmap string value;
  applied : list (string * tensor);
}.

Definition empty_pass : pass := {| statistics := ∅; applied := [] |}.

(** Lines 139-145: the value for one tensor and one function. *)
Definition compute_value (skip_nan_params : bool) (function_name : string)
    (function : stat_fn) (params : tensor) (applied : list (string * tensor))
    : result (value * list (string * tensor)) :=
  if skip_nan_params && isnan_any params then Ok (float_nan, applied)
  else v ← function params; Ok (v, applied ++ [(function_name, params)]).

(** The body of the innermost loop, lines 139-159. *)
Definition loop_body (self : ParameterStatistics) (param_name : string)
    (param : parameter) (attr_name : string)
    (entry : string * stat_fn) (st : pass) : result pass :=
  let '(function_name, function) := entry in
  obj ← getattr param attr_name;
  params ← obj_flatten obj;
  '(v, applied') ← compute_value (_skip_nan_params self) function_name
                     function params (applied st);
  let key := report_key_template (prefix_arg (_prefix self)) param_name
               attr_name function_name in
  Ok {| statistics := store key v (statistics st); applied := applied' |}.

(** Lines 130-159: the four nested loops. *)
Definition collect_param (self : ParameterStatistics)
    (np : string * parameter) (st : pass) : result pass :=
  for_each (_attrs self) (λ attr_name,
    for_each (_statistics self) (loop_body self np.1 np.2 attr_name)) st.

Definition collect_link (self : ParameterStatistics) (l : link) (st : pass)
    : result pass :=
  nps ← named_parameters l;
  for_each nps (collect_param self) st.

Definition collect (self : ParameterStatistics) : result pass :=
  for_each (_links self) (collect_link self) empty_pass.

(** [__call__]: collect, add to the summary, and report and reset when the
    trigger fires.  The reporter is seen as the list of the dictionaries it
    was handed. *)
Definition __call__ (self : ParameterStatistics) (manager : Mgr)
    (reported : list (gmap string value))
    : result (ParameterStatistics * list (gmap string value)) :=
  st ← collect self;
  let summary := summary_add (_summary self) (statistics st) in
  let '(fired, trigger') := trigger_call (_trigger self) manager in
  if fired
  then Ok ({| _links := _links self; _statistics := _statistics self;
              _attrs := _attrs self; _prefix := _prefix self;
              _trigger := trigger'; _summary := new_summary;
              _skip_nan_params := _skip_nan_params self |},
           reported ++ [compute_mean summary])
  else Ok ({| _links := _links self; _statistics := _statistics self;
              _attrs := _attrs self; _prefix := _prefix self;
              _trigger := trigger'; _summary := summary;
              _skip_nan_params := _skip_nan_params self |},
           reported).

(** [register_statistics] *)
Definition register_statistics (self : ParameterStatistics) (name : string)
    (function : stat_fn) : ParameterStatistics :=
  {| _links := _links self;
     _statistics := dict_setitem (_statistics self) name function;
     _attrs := _attrs self; _prefix := _prefix self;
     _trigger := _trigger self; _summary := _summary self;
     _skip_nan_params := _skip_nan_params self |}.

Definition with_links (self : ParameterStatistics) (links : list link)
    : ParameterStatistics :=
  {| _links := links; _statistics := _statistics self;
     _attrs := _attrs self; _prefix := _prefix self;
     _trigger := _trigger self; _summary := _summary self;
     _skip_nan_params := _skip_nan_params self |}.

Definition with_prefix (self : ParameterStatistics) (prefix : option string)
    : ParameterStatistics :=
  {| _links := _links self; _statistics := _statistics self;
     _attrs := _attrs self; _prefix := prefix;
     _trigger := _trigger self; _summary := _summary self;
     _skip_nan_params := _skip_nan_params self |}.

(** A run of invocations.  Between two invocations the host trains the
    model: each invocation comes with the links as they are at that time. *)
Fixpoint run (self : ParameterStatistics)
    (invocations : list (list link * Mgr))
    (reported : list (gmap string value))
    : result (ParameterStatistics * list (gmap string value)) :=
  match invocations with
  | [] => Ok (self, reported)
  | (links, manager) :: rest =>
      r ← __call__ (with_links self links) manager reported;
      run r.1 rest r.2
  end.

(** The dictionaries fed to the summary by a run. *)
Fixpoint collected (self : ParameterStatistics)
    (invocations : list (list link * Mgr)) : list (gmap string value) :=
  match invocations with
  | [] => []
  | (links, _) :: rest =>
      match collect (with_links self links) with
      | Ok st => statistics st :: collected self rest
      | Raise _ => []
      end
  end.

(** What the trigger answers over a sequence of invocations. *)
Fixpoint fires (trigger : T) (managers : list Mgr) : list bool :=
  match managers with
  | [] => []
  | manager :: rest =>
      (trigger_call trigger manager).1
      :: fires (trigger_call trigger manager).2 rest
  end.

(** The loops reach the parameter [param_name] through the attribute
    [attr_name] with the registered function [function_name]. *)
Definition visited (self : ParameterStatistics) (param_name : string)
    (param : parameter) (attr_name function_name : string)
    (function : stat_fn) : Prop :=
  ∃ m, Link m ∈ _links self ∧ (param_name, param) ∈ m ∧
       attr_name ∈ _attrs self ∧
       (function_name, function) ∈ _statistics self.

(** Every link is a module. *)
Definition links_ok (self : ParameterStatistics) : Prop :=
  ∀ l, l ∈ _links self → ∃ m, l = Link m.

End extension.

Global Arguments ParameterStatistics : clear implicits.

(** * Notions used in the statements *)

(** [sub in s] *)
Definition contains (sub s : string) : Prop :=
  ∃ before after, s = before +:+ sub +:+ after.

(** The characters of a string. *)
Fixpoint chars (s : string) : list ascii :=
  match s with
  | EmptyString => []
  | String c s' => c :: chars s'
  end.

(** The keys one result is stored under. *)
Definition keys_of (key : string) (v : value) : list string :=
  match v with
  | VTensor t =>
      if bool_decide (1 < numel t)
      then indexed_key key <$> seq 0 (length (iter_tensor t))
      else [key]
  | _ => [key]
  end.

(** The entries one result is stored as. *)
Definition items_of (key : string) (v : value) : list (string * value) :=
  match v with
  | VTensor t =>
      if bool_decide (1 < numel t) then indexed_items key t else [(key, v)]
  | _ => [(key, v)]
  end.

(** The value lines 139-145 compute for a flattened tensor. *)
Definition value_of (skip_nan_params : bool) (function : stat_fn)
    (params : tensor) : result value :=
  if skip_nan_params && isnan_any params then Ok float_nan
  else function params.

(** * Collaborators and data for the examples *)

(** Binary64 numbers. *)
Definition f64 (n : Z) : spec_float := binary_normalize 53 1024 n 0 false.
Definition f64_add : spec_float → spec_float → spec_float := SFadd 53 1024.
Definition f64_sub : spec_float → spec_float → spec_float := SFsub 53 1024.
Definition f64_mul : spec_float → spec_float → spec_float := SFmul 53 1024.
Definition f64_div : spec_float → spec_float → spec_float := SFdiv 53 1024.

Definition f64_sum (xs : list spec_float) : spec_float :=
  foldl f64_add (f64 0) xs.

Definition f64_mean (xs : list spec_float) : spec_float :=
  f64_div (f64_sum xs) (f64 (Z.of_nat (length xs))).

Definition f64_min (x y : spec_float) : spec_float :=
  if is_nan x then x else if is_nan y then y
  else if SFltb y x then y else x.

Definition f64_max (x y : spec_float) : spec_float :=
  if is_nan x then x else if is_nan y then y
  else if SFltb x y then y else x.

(** A zero-dimensional tensor. *)
Definition scalar_tensor (x : spec_float) : value :=
  VTensor {| shape := []; elems := [x] |}.

Definition reduce (op : spec_float → spec_float → spec_float) : stat_fn :=
  λ x, match elems x with
       | [] => Raise (FunctionError "empty tensor")
       | y :: ys => Ok (scalar_tensor (foldl op y ys))
       end.

(** Binary64 reductions standing for the host framework's. *)
Global Instance f64_torch : Torch := {|
  torch_mean x := Ok (scalar_tensor (f64_mean (elems x)));
  torch_std x :=
    let m := f64_mean (elems x) in
    let squares := (λ y, f64_mul (f64_sub y m) (f64_sub y m)) <$> elems x in
    Ok (scalar_tensor
          (SFsqrt 53 1024
             (f64_div (f64_sum squares)
                (f64 (Z.of_nat (length (elems x)) - 1)))));
  torch_min := reduce f64_min;
  torch_max := reduce f64_max;
  torch_count_zeros x :=
    Ok (scalar_tensor
          (f64 (Z.of_nat (length (filter (λ y, SFeqb y (f64 0) = true)
                                    (elems x))))));
|}.

(** The number a value stands for, when it is a single one. *)
Definition scalar_of (v : value) : option spec_float :=
  match v with
  | VFloat x => Some x
  | VTensor t => match elems t with [x] => Some x | _ => None end
  | VSeq _ => None
  end.

(** Modelled from the spec: [reporting.DictSummary.add], which is not among
    the sources.  The summary ingests a mapping of key to value on each call
    and maintains running means keyed by report key: here, per key, the sum
    and the number of the scalars seen. *)
Definition mean_summary_add (s : gmap string (spec_float * Z))
    (d : gmap string value) : gmap string (spec_float * Z) :=
  merge (λ acc v,
    match v ≫= scalar_of with
    | Some x =>
        let '(sum, n) := default (f64 0, 0%Z) acc in
        Some (f64_add sum x, (n + 1)%Z)
    | None => acc
    end) s d.

(** The scalars that a sequence of dictionaries holds under a key. *)
Definition observations (key : string) (ds : list (gmap string value))
    : list spec_float :=
  omap (λ d : gmap string value, d !! key ≫= scalar_of) ds.

(** Modelled from the spec: [reporting.DictSummary.compute_mean], which is
    not among the sources: the current mean of every key. *)
Definition mean_summary_compute (s : gmap string (spec_float * Z))
    : gmap string value :=
  (λ acc, VFloat (f64_div acc.1 (f64 acc.2))) <$> s.

(** Modelled from the spec: [reporting.DictSummary], which is not among the
    sources; a fresh summary is empty. *)
Global Instance mean_summary : DictSummary (gmap string (spec_float * Z)) := {|
  new_summary := ∅;
  summary_add := mean_summary_add;
  compute_mean := mean_summary_compute;
|}.

(** Modelled from the spec: a trigger configured to fire every [n]
    invocations ([trigger_module] is not among the sources).  Its state is
    the period and the number of invocations seen; the manager is not
    consulted. *)
Global Instance interval_trigger : TriggerModule nat (nat * nat) unit := {|
  get_trigger n := (n, 0);
  trigger_call t _ := (bool_decide ((t.2 + 1) `mod` t.1 = 0), (t.1, t.2 + 1));
|}.

(** Statistic functions: the mean as a Python float, the number of elements,
    the argument as two rows of two, and a function that raises whenever it
    is called. *)
Definition sample_mean : stat_fn := λ x, Ok (VFloat (f64_mean (elems x))).

Definition sample_count : stat_fn := λ x,
  Ok (VFloat (f64 (Z.of_nat (length (elems x))))).


Definition sample_raise : stat_fn := λ _, Raise (FunctionError "called").


(** Parameters without gradient: [1.0, 3.0], [1.0, 2.0, 3.0, 4.0] and
    [1.0, nan]. *)
Definition sample_W : parameter :=
  {| data := {| shape := [2]; elems := [f64 1; f64 3] |}; grad := None |}.

Definition sample_W4 : parameter :=
  {| data := {| shape := [4]; elems := [f64 1; f64 2; f64 3; f64 4] |};
     grad := None |}.

Definition sample_Wnan : parameter :=
  {| data := {| shape := [2]; elems := [f64 1; S754_nan] |}; grad := None |}.

(** An extension over these collaborators, with [report_params=True] and the
    trigger firing every [period] invocations. *)
Definition sample_stats (links : links_arg)
    (statistics : list (string * stat_fn)) (report_grads : bool)
    (prefix : option string) (period : nat) (skip_nan_params : bool)
    : ParameterStatistics (gmap string (spec_float * Z)) (nat * nat) :=
  __init__ links (StatDict statistics) true report_grads prefix period
    skip_nan_params.

(** * The loop order *)

Section loop_order.
Context {S T : Type}.
Implicit Types (self : ParameterStatistics S T).

(** One iteration of the innermost loop: a named parameter, an attribute
    and a registry entry. *)
Definition iteration : Type := string * parameter * string * (string * stat_fn).

(** The iterations of a pass over one module and over the modules [ms], in
    the order of the loops of lines 132-135. *)
Definition module_iterations self (m : module) : list iteration :=
  np ← m; attr_name ← _attrs self; entry ← _statistics self;
  [(np.1, np.2, attr_name, entry)].

Definition iterations self (ms : list module) : list iteration :=
  ms ≫= module_iterations self.

(** The body of the innermost loop at an iteration. *)
Definition iterate self (it : iteration) : pass → result pass :=
  loop_body self it.1.1.1 it.1.1.2 it.1.2 it.2.

(** The report key of an iteration. *)
Definition iteration_key self (it : iteration) : string :=
  report_key_template (prefix_arg (_prefix self)) it.1.1.1 it.1.2 it.2.1.

(** The flattened tensor of an iteration, when the attribute is there. *)
Definition iteration_params (it : iteration) : option tensor :=
  match getattr it.1.1.2 it.1.2 with
  | Ok (Some t) => Some (flatten t)
  | _ => None
  end.

(** The function application an iteration makes, if any. *)
Definition application self (it : iteration) : option (string * tensor) :=
  params ← iteration_params it;
  if _skip_nan_params self && isnan_any params then None
  else Some (it.2.1, params).

(** The entries an iteration writes, when it returns. *)
Definition iteration_items self (it : iteration) : option (list (string * value)) :=
  params ← iteration_params it;
  match value_of (_skip_nan_params self) it.2.2 params with
  | Ok v => Some (items_of (iteration_key self it) v)
  | Raise _ => None
  end.


(** The pass with every key renamed by [f]. *)
Definition rename_keys (f : string → string) (st : pass) : pass :=
  {| statistics := kmap f (statistics st); applied := applied st |}.

End loop_order.

(** * Statistic functions that write to their argument

    A tensor has its elements in a storage, and [flatten()] of a contiguous
    tensor is a view: it shares the storage, so that what a function writes
    to its argument in place is written to the parameter.  Here the
    parameters live in a store, the statistic functions may write, and the
    pass of lines 130-159 is a computation over the store. *)

Module InPlace.

Definition storage := nat.

(** The elements each storage holds, in row-major order. *)
Definition heap := gmap storage (list spec_float).

(** A tensor object: its shape, the storage of its elements and whether it
    is contiguous.  Objects with the same storage share their elements,
    which the store holds in the row-major order of the object. *)
Record tensor_ref := {
  ref_shape : list nat;
  ref_storage : storage;
  ref_contiguous : bool;
}.

(** The tensor an object holds. *)
Definition read (h : heap) (obj : tensor_ref) : tensor :=
  {| shape := ref_shape obj; elems := default [] (h !! ref_storage obj) |}.

(** A parameter, a module and a link, with their tensors in the store. *)
Record parameter_ref := {
  data_ref : tensor_ref;
  grad_ref : option tensor_ref;
}.

Definition module_ref := list (string * parameter_ref).

Inductive link_ref :=
  | LinkRef (m : module_ref)
  | NotALinkRef (items : list module_ref).

(** A statistic function that may write to its argument: for the flattened
    tensor it is handed, the elements it writes (position and new element,
    in the order written) and what it returns or raises. *)
Definition inplace_fn := tensor → list (nat * spec_float) * result value.

(** The elements after the writes. *)
Definition write (xs : list spec_float) (writes : list (nat * spec_float))
    : list spec_float :=
  foldl (λ l w, <[w.1 := w.2]> l) xs writes.

(** A computation over the store: it leaves a store, and returns or
    raises. *)
Definition inplace (A : Type) : Type := heap → heap * result A.

(** [for x in xs: s = body x s], stopping at the first exception, with the
    store as the iterations left it. *)
Fixpoint for_each {A St : Type} (xs : list A) (body : A → St → inplace St)
    (s : St) : inplace St :=
  λ h, match xs with
       | [] => (h, Ok s)
       | x :: xs' =>
           match body x s h with
           | (h', Ok s') => for_each xs' body s' h'
           | (h', Raise e) => (h', Raise e)
           end
       end.

Definition getattr (param : parameter_ref) (attr_name : string)
    : result (option tensor_ref) :=
  if decide (attr_name = "data") then Ok (Some (data_ref param))
  else if decide (attr_name = "grad") then Ok (grad_ref param)
  else Raise AttributeError.

Definition named_parameters (l : link_ref) : result module_ref :=
  match l with
  | LinkRef m => Ok m
  | NotALinkRef _ => Raise AttributeError
  end.

Section extension.
Context {S Spec T Mgr : Type}.
Context `{!DictSummary S, !TriggerModule Spec T Mgr}.

Record ParameterStatistics := {
  _links : list link_ref;
  _statistics : list (string * inplace_fn);
  _attrs : list string;
  _prefix : option string;
  _trigger : T;
  _summary : S;
  _skip_nan_params : bool;
}.

(** Lines 139-145.  [params] is the flattened tensor as the store holds it
    now; when the tensor is contiguous, [params] shares its storage and the
    writes of the function go there, otherwise [params] is a copy. *)
Definition compute_value (skip_nan_params : bool) (function_name : string)
    (function : inplace_fn) (obj : tensor_ref)
    (applied : list (string * tensor))
    : inplace (value * list (string * tensor)) :=
  λ h, let params := flatten (read h obj) in
       if skip_nan_params && isnan_any params then (h, Ok (float_nan, applied))
       else
         let h' := if ref_contiguous obj
                   then alter (λ xs, write xs (function params).1)
                          (ref_storage obj) h
                   else h in
         (h', v ← (function params).2;
              Ok (v, applied ++ [(function_name, params)])).

(** The body of the innermost loop, lines 139-159. *)
Definition loop_body (self : ParameterStatistics) (param_name : string)
    (param : parameter_ref) (attr_name : string)
    (entry : string * inplace_fn) (st : pass) : inplace pass :=
  λ h, match getattr param attr_name with
       | Ok (Some obj) =>
           let r := compute_value (_skip_nan_params self) entry.1 entry.2
                      obj (applied st) h in
           let key := report_key_template (prefix_arg (_prefix self))
                        param_name attr_name entry.1 in
           (r.1, va ← r.2;
                 Ok {| statistics := store key va.1 (statistics st);
                       applied := va.2 |})
       | Ok None => (h, Raise AttributeError)
       | Raise e => (h, Raise e)
       end.

(** Lines 130-159: the four nested loops. *)
Definition collect_param (self : ParameterStatistics)
    (np : string * parameter_ref) (st : pass) : inplace pass :=
  for_each (_attrs self) (λ attr_name,
    for_each (_statistics self) (loop_body self np.1 np.2 attr_name)) st.

Definition collect_link (self : ParameterStatistics) (l : link_ref)
    (st : pass) : inplace pass :=
  λ h, match named_parameters l with
       | Ok nps => for_each nps (collect_param self) st h
       | Raise e => (h, Raise e)
       end.

Definition collect (self : ParameterStatistics) : inplace pass :=
  for_each (_links self) (collect_link self) empty_pass.

(** [__call__]: the pass, then lines 161-165, where the collaborators are
    handed the mapping and the manager and are taken to leave the store as
    it is. *)
Definition __call__ (self : ParameterStatistics) (manager : Mgr)
    (reported : list (gmap string value))
    : inplace (ParameterStatistics * list (gmap string value)) :=
  λ h, let r := collect self h in
       (r.1,
        st ← r.2;
        let summary := summary_add (_summary self) (statistics st) in
        let '(fired, trigger') := trigger_call (_trigger self) manager in
        if fired
        then Ok ({| _links := _links self; _statistics := _statistics self;
                    _attrs := _attrs self; _prefix := _prefix self;
                    _trigger := trigger'; _summary := new_summary;
                    _skip_nan_params := _skip_nan_params self |},
                 reported ++ [compute_mean summary])
        else Ok ({| _links := _links self; _statistics := _statistics self;
                    _attrs := _attrs self; _prefix := _prefix self;
                    _trigger := trigger'; _summary := summary;
                    _skip_nan_params := _skip_nan_params self |},
                 reported)).


End extension.

Global Arguments ParameterStatistics : clear implicits.







End InPlace.






(** * Lemmas on the building blocks *)

Lemma bind_Ok {A B} (m : result A) (f : A → result B) (b : B) :
  m ≫= f = Ok b ↔ ∃ a, m = Ok a ∧ f a = Ok b.
Proof.
  destruct m as [a|e]; simpl.
  - split; [eauto | by intros (? & [= <-] & ?)].
  - split; [done | by intros (? & [=] & _)].
Qed.

(** An invariant kept by every iteration holds after the loop. *)
Lemma for_each_inv {A St} (P : St → Prop) (xs : list A)
    (body : A → St → result St) (s s' : St) :
  (∀ x s1 s2, x ∈ xs → P s1 → body x s1 = Ok s2 → P s2) →
  P s → for_each xs body s = Ok s' → P s'.
Proof.
  revert s. induction xs as [|x xs IH]; intros s Hbody Hs Hrun.
  - by injection Hrun as <-.
  - apply bind_Ok in Hrun as (s1 & Hx & Hrest).
    apply (IH s1); [|by eapply Hbody; [left|..]|done].
    intros y ?? Hy. apply Hbody. by right.
Qed.

(** A loop that returns ran each of its iterations.  [R] relates the state
    before and after any iteration. *)
Lemma for_each_elem {A St} (R : relation St) `{!PreOrder R} (xs : list A)
    (body : A → St → result St) (s s' : St) (x : A) :
  (∀ y s1 s2, y ∈ xs → body y s1 = Ok s2 → R s1 s2) →
  for_each xs body s = Ok s' → x ∈ xs →
  ∃ s1 s2, R s s1 ∧ body x s1 = Ok s2 ∧ R s2 s'.
Proof.
  revert s. induction xs as [|y xs IH]; intros s Hbody Hrun Hx.
  - by apply elem_of_nil in Hx.
  - apply bind_Ok in Hrun as (s1 & Hy & Hrest).
    assert (R s1 s') as Hs1.
    { clear Hx IH Hy. revert s1 Hrest.
      induction xs as [|z xs IH]; intros s1 Hrest.
      - by injection Hrest as <-.
      - apply bind_Ok in Hrest as (s2 & Hz & Hrest).
        trans s2.
        + eapply (Hbody z); [set_solver|done].
        + apply IH; [|done]. intros ????. apply Hbody. set_solver. }
    apply elem_of_cons in Hx as [->|Hx].
    + exists s, s1. done.
    + destruct (IH s1) as (s2 & s3 & ? & ? & ?); [|done..|].
      { intros ????. apply Hbody. by right. }
      exists s2, s3. split_and!; [|done..].
      trans s1; [|done]. eapply Hbody; [by left|done].
Qed.

(** ** Keys *)

Lemma indexed_key_inj key : Inj (=) (=) (indexed_key key).
Proof.
  intros i j Hij. unfold indexed_key in Hij.
  apply (inj (String.app key)), (inj (String.app "/")) in Hij.
  by apply (inj pretty) in Hij.
Qed.


Lemma indexed_keys_NoDup key n : NoDup (indexed_key key <$> seq 0 n).
Proof. apply NoDup_fmap_2; [apply indexed_key_inj | apply NoDup_seq]. Qed.

(** ** Tensors *)

Lemma flatten_wf t : tensor_wf t → tensor_wf (flatten t).
Proof. unfold tensor_wf, flatten, numel. simpl. lia. Qed.




(** ** The dictionary of one pass *)

Lemma dict_update_snoc (d : gmap string value) items k v :
  dict_update d (items ++ [(k, v)]) = <[k := v]> (dict_update d items).
Proof. unfold dict_update. by rw foldl_snoc. Qed.

Lemma dom_dict_update (d : gmap string value) items :
  dom (dict_update d items) = dom d ∪ list_to_set items.*1.
Proof.
  induction items as [|[k v] items IH] using rev_ind.
  - set_solver.
  - rw dict_update_snoc dom_insert_L IH fmap_app list_to_set_app_L /=.
    set_solver.
Qed.

Lemma lookup_dict_update_notin (d : gmap string value) items k :
  k ∉ items.*1 → dict_update d items !! k = d !! k.
Proof.
  induction items as [|[k' v] items IH] using rev_ind; [done|].
  rw fmap_app not_elem_of_app /= => -[? Hk].
  rw dict_update_snoc lookup_insert_ne; [set_solver|by apply IH].
Qed.

Lemma lookup_dict_update_in (d : gmap string value) items k v :
  NoDup items.*1 → (k, v) ∈ items → dict_update d items !! k = Some v.
Proof.
  induction items as [|[k' v'] items IH] using rev_ind; [by intros _ ?%elem_of_nil|].
  rw fmap_app /= NoDup_app => -[Hnd [Hdisj _]].
  rw dict_update_snoc elem_of_app list_elem_of_singleton.
  intros [Hin|[= -> ->]]; [|by rw lookup_insert_eq].
  rw lookup_insert_ne; [|by apply IH].
  intros ->. apply (Hdisj k); [|set_solver].
  apply list_elem_of_fmap. by exists (k, v).
Qed.

Lemma indexed_items_keys key t :
  (indexed_items key t).*1 = indexed_key key <$> seq 0 (length (iter_tensor t)).
Proof.
  unfold indexed_items. rw fmap_imap -imap_seq_0.
  by apply imap_ext.
Qed.

Lemma keys_of_single key v : is_multi v = false → keys_of key v = [key].
Proof.
  destruct v as [|t|]; simpl; try done. by intros ->.
Qed.

Lemma store_single key v (d : gmap string value) :
  is_multi v = false → store key v d = <[key := v]> d.
Proof. destruct v as [|t|]; simpl; try done. by intros ->. Qed.

Lemma store_multi key t (d : gmap string value) :
  is_multi (VTensor t) = true →
  store key (VTensor t) d = dict_update d (indexed_items key t).
Proof. simpl. by intros ->. Qed.

Lemma store_items key v (d : gmap string value) :
  store key v d = dict_update d (items_of key v).
Proof.
  destruct v as [|t|]; simpl; try done. by case_bool_decide.
Qed.

Lemma keys_of_items key v : keys_of key v = (items_of key v).*1.
Proof.
  destruct v as [|t|]; simpl; try done.
  case_bool_decide; [|done]. by rw indexed_items_keys.
Qed.

Lemma elem_of_items_of key v k x :
  (k, x) ∈ items_of key v ↔
  (is_multi v = false ∧ k = key ∧ x = v) ∨
  (∃ t i row, v = VTensor t ∧ 1 < numel t ∧ iter_tensor t !! i = Some row ∧
              k = indexed_key key i ∧ x = VTensor row).
Proof.
  destruct v as [y|t|ys]; simpl.
  - rw list_elem_of_singleton. split; [intros [= -> ->]; by left|].
    intros [(_ & -> & ->)|(? & ? & ? & [=] & _)]; done.
  - case_bool_decide as Hn.
    + unfold indexed_items. rw elem_of_lookup_imap. split.
      * intros (i & row & [= -> ->] & Hrow). right. by exists t, i, row.
      * intros [([=] & _)|(? & i & row & [= <-] & _ & Hrow & -> & ->)].
        by exists i, row.
    + rw list_elem_of_singleton. split; [intros [= -> ->]; by left|].
      intros [(_ & -> & ->)|(? & ? & ? & [= <-] & ? & _)]; done.
  - rw list_elem_of_singleton. split; [intros [= -> ->]; by left|].
    intros [(_ & -> & ->)|(? & ? & ? & [=] & _)]; done.
Qed.

Lemma lookup_dict_update_Some (d : gmap string value) items k x :
  dict_update d items !! k = Some x → (k, x) ∈ items ∨ d !! k = Some x.
Proof.
  induction items as [|[k' v'] items IH] using rev_ind; [by right|].
  rw dict_update_snoc lookup_insert. case_decide as Hk.
  - intros [= ->]. subst k'. left. set_solver.
  - intros [?|?]%IH; [left; set_solver|by right].
Qed.

Lemma dom_store key v (d : gmap string value) :
  dom (store key v d) = dom d ∪ list_to_set (keys_of key v).
Proof.
  destruct (is_multi v) eqn:Hv.
  - destruct v as [|t|]; try done. rw store_multi //.
    rw dom_dict_update indexed_items_keys.
    simpl in *. by rw Hv.
  - rw store_single // keys_of_single // dom_insert_L. set_solver.
Qed.

(** * The collection pass *)

Section proofs.
Context {S Spec T Mgr : Type}.
Context `{!DictSummary S, !TriggerModule Spec T Mgr}.
Implicit Types (self : ParameterStatistics S T) (st : pass).
Implicit Types (d : gmap string value) (t : tensor) (v : value).

Lemma getattr_Ok p an o :
  getattr p an = Ok o →
  (an = "data" ∧ o = Some (data p)) ∨ (an = "grad" ∧ o = grad p).
Proof.
  unfold getattr. repeat case_decide; intros [= <-]; auto.
Qed.

Lemma value_of_nan f t : isnan_any t = true → value_of true f t = Ok float_nan.
Proof. unfold value_of. by intros ->. Qed.

Lemma value_of_clean skip f t : isnan_any t = false → value_of skip f t = f t.
Proof. unfold value_of. intros ->. by rw andb_false_r. Qed.

(** What one iteration of the innermost loop does when it returns. *)
Lemma loop_body_Ok self pn p an fn f st st' :
  loop_body self pn p an (fn, f) st = Ok st' ↔
  ∃ t v,
    getattr p an = Ok (Some t) ∧
    value_of (_skip_nan_params self) f (flatten t) = Ok v ∧
    st' = {| statistics :=
               store (report_key_template (prefix_arg (_prefix self)) pn an fn)
                 v (statistics st);
             applied :=
               if _skip_nan_params self && isnan_any (flatten t)
               then applied st else applied st ++ [(fn, flatten t)] |}.
Proof.
  unfold loop_body, compute_value, value_of. split.
  - intros (o & Hget & Hrest)%bind_Ok.
    apply bind_Ok in Hrest as (params & Hflat & Hrest).
    destruct o as [t|]; [injection Hflat as <-|done].
    exists t.
    destruct (_skip_nan_params self && isnan_any (flatten t)).
    + injection Hrest as <-. by exists float_nan.
    + destruct (f (flatten t)) as [v|]; [|done].
      injection Hrest as <-. by exists v.
  - intros (t & v & -> & Hv & ->). simpl.
    destruct (_skip_nan_params self && isnan_any (flatten t)).
    + by injection Hv as <-.
    + by rw Hv.
Qed.

(** An invariant kept by every iteration of the innermost loop holds of the
    pass that [collect] returns. *)
Lemma collect_inv (P : pass → Prop) self st :
  P empty_pass →
  (∀ pn p an fn f st1 st2,
     visited self pn p an fn f → P st1 →
     loop_body self pn p an (fn, f) st1 = Ok st2 → P st2) →
  collect self = Ok st → P st.
Proof.
  intros Hinit Hbody. unfold collect.
  apply for_each_inv; [|done]. intros l st1 st2 Hl Hst1.
  unfold collect_link. intros (m & Hm & Hrun)%bind_Ok.
  destruct l as [m'|]; [injection Hm as ->|done].
  revert Hrun. apply for_each_inv; [|done].
  intros [pn p] st3 st4 Hp Hst3. unfold collect_param. simpl.
  apply for_each_inv; [|done]. intros an st5 st6 Han Hst5.
  apply for_each_inv; [|done]. intros [fn f] st7 st8 Hf Hst7.
  apply Hbody; [|done]. by exists m.
Qed.

(** A pass that returns has run the innermost loop's body at everything the
    loops reach; [R] relates the pass before and after any iteration. *)
Lemma collect_elem (R : relation pass) `{!PreOrder R} self st pn p an fn f :
  (∀ pn p an fn f st1 st2,
     loop_body self pn p an (fn, f) st1 = Ok st2 → R st1 st2) →
  collect self = Ok st → visited self pn p an fn f →
  ∃ st1 st2, loop_body self pn p an (fn, f) st1 = Ok st2 ∧ R st2 st.
Proof.
  intros Hbody Hrun (m & Hm & Hp & Han & Hf).
  assert (∀ an st1 st2,
    for_each (_statistics self) (loop_body self pn p an) st1 = Ok st2 →
    R st1 st2) as Hfuns.
  { intros an' st1 st2. apply (for_each_inv (R st1)); [|done].
    intros [fn' f'] ?? _ ? ?. etrans; [done|]. by eapply Hbody. }
  assert (∀ np st1 st2, collect_param self np st1 = Ok st2 → R st1 st2)
    as Hparam.
  { intros [pn' p'] st1 st2. apply (for_each_inv (R st1)); [|done].
    intros an' ?? _ ? ?. etrans; [done|].
    eapply (for_each_inv (R _)); [|done..].
    intros [fn' f'] ?? _ ? ?. etrans; [done|]. by eapply Hbody. }
  assert (∀ l st1 st2, collect_link self l st1 = Ok st2 → R st1 st2)
    as Hlink.
  { intros l st1 st2 (m' & _ & Hrun')%bind_Ok. revert Hrun'.
    apply (for_each_inv (R st1)); [|done].
    intros np ?? _ ? ?. etrans; [done|]. by eapply Hparam. }
  eapply (for_each_elem R) in Hrun as (s1 & s2 & _ & Hl & Hs2); [|by eauto|done].
  apply bind_Ok in Hl as (m' & [= <-] & Hl).
  eapply (for_each_elem R) in Hl as (s3 & s4 & _ & Hnp & Hs4); [|by eauto|done].
  eapply (for_each_elem R) in Hnp as (s5 & s6 & _ & Hattr & Hs6);
    [|by intros; eapply Hfuns|done].
  eapply (for_each_elem R) in Hattr as (s7 & s8 & _ & Hfn & Hs8);
    [|by intros [??] ??? ?; eapply Hbody|done].
  exists s7, s8. split; [done|]. by repeat (etrans; [done|]).
Qed.

(** A pass over modules only fails where an iteration fails. *)
Lemma collect_total self :
  links_ok self →
  (∀ pn p an fn f st1, visited self pn p an fn f →
     ∃ st2, loop_body self pn p an (fn, f) st1 = Ok st2) →
  ∃ st, collect self = Ok st.
Proof.
  intros Hlinks Hbody.
  assert (∀ {A} (xs : list A) (body : A → pass → result pass) st1,
    (∀ x st1, x ∈ xs → ∃ st2, body x st1 = Ok st2) →
    ∃ st2, for_each xs body st1 = Ok st2) as Hloop.
  { intros A xs body. induction xs as [|x xs IH]; intros st1 Hxs; [by eexists|].
    destruct (Hxs x st1) as [st2 Hx]; [by left|]. simpl. rw Hx. simpl.
    apply IH. intros ???. apply Hxs. by right. }
  unfold collect. apply Hloop. intros l st1 Hl.
  destruct (Hlinks l Hl) as [m ->]. simpl.
  apply Hloop. intros [pn p] st2 Hp. apply Hloop. intros an st3 Han.
  apply Hloop. intros [fn f] st4 Hf. apply Hbody. by exists m.
Qed.

(** A pass over modules returns when every attribute scanned is there and
    every function returns on the tensors it is applied to. *)
Lemma collect_returns self :
  links_ok self →
  (∀ pn p an fn f, visited self pn p an fn f →
     ∃ t v, getattr p an = Ok (Some t) ∧
            value_of (_skip_nan_params self) f (flatten t) = Ok v) →
  ∃ st, collect self = Ok st.
Proof.
  intros Hlinks Hvalues. apply collect_total; [done|].
  intros pn p an fn f st1 Hvis.
  destruct (Hvalues pn p an fn f Hvis) as (t & v & Hget & Hv).
  eexists. apply loop_body_Ok. by exists t, v.
Qed.

(** The dictionary only grows during a pass. *)
Lemma dom_store_subseteq key v d : dom d ⊆ dom (store key v d).
Proof. rw dom_store. set_solver. Qed.

Lemma dom_preorder :
  PreOrder (λ st1 st2 : pass, dom (statistics st1) ⊆ dom (statistics st2)).
Proof. split; [by intros ?|]. intros ???. set_solver. Qed.

Lemma loop_body_dom self pn p an fn f st1 st2 :
  loop_body self pn p an (fn, f) st1 = Ok st2 →
  dom (statistics st1) ⊆ dom (statistics st2).
Proof.
  intros (t & v & _ & _ & ->)%loop_body_Ok. apply dom_store_subseteq.
Qed.

(** ** Report keys *)

(** Every entry of the dictionary was written by an iteration, with the
    key and the value of that iteration. *)
Lemma collect_entries self st key x :
  collect self = Ok st → statistics st !! key = Some x →
  ∃ pn p an fn f t v,
    visited self pn p an fn f ∧
    getattr p an = Ok (Some t) ∧
    value_of (_skip_nan_params self) f (flatten t) = Ok v ∧
    (key, x) ∈ items_of
      (report_key_template (prefix_arg (_prefix self)) pn an fn) v.
Proof.
  intros Hrun. revert key x.
  apply (collect_inv (λ st, ∀ key x, statistics st !! key = Some x → _)
           self st); [done| |done].
  intros pn p an fn f st1 st2 Hvis IH (t & v & Hget & Hv & ->)%loop_body_Ok.
  intros key x. simpl. rw store_items. intros [Hnew|Hold]%lookup_dict_update_Some.
  - by exists pn, p, an, fn, f, t, v.
  - by apply IH.
Qed.


(** ** Storing a result *)

(** The rows of a tensor of more than one element are stored under the
    indexed keys, in order, and nothing else changes. *)
Lemma store_rows key t d :
  1 < numel t →
  (∀ i row, iter_tensor t !! i = Some row →
     store key (VTensor t) d !! indexed_key key i = Some (VTensor row)) ∧
  (∀ k, (∀ i, i < length (iter_tensor t) → k ≠ indexed_key key i) →
     store key (VTensor t) d !! k = d !! k).
Proof.
  intros Hn. rw store_items. simpl. rw bool_decide_true //. split.
  - intros i row Hrow. apply lookup_dict_update_in.
    + rw indexed_items_keys. apply indexed_keys_NoDup.
    + unfold indexed_items. apply elem_of_lookup_imap. by exists i, row.
  - intros k Hk. apply lookup_dict_update_notin.
    rw indexed_items_keys. intros (i & -> & Hi%elem_of_seq)%list_elem_of_fmap.
    apply (Hk i); [lia|done].
Qed.

Lemma iter_tensor_lookup t n rest i :
  shape t = n :: rest → i < n →
  iter_tensor t !! i
  = Some {| shape := rest;
            elems := take (prod_list rest)
                       (drop (i * prod_list rest) (elems t)) |}.
Proof.
  intros Hshape Hi. unfold iter_tensor. rw Hshape.
  rw list_lookup_fmap lookup_seq_lt //.
Qed.

Lemma length_iter_tensor t n rest :
  shape t = n :: rest → length (iter_tensor t) = n.
Proof.
  intros Hshape. unfold iter_tensor. rw Hshape.
  by rw length_fmap length_seq.
Qed.


(** ** Skipping parameters with NaNs *)

(** With [skip_nan_params], no function is ever applied to a tensor holding
    a NaN. *)
Lemma collect_applied_clean self st fn x :
  _skip_nan_params self = true → collect self = Ok st →
  (fn, x) ∈ applied st → isnan_any x = false.
Proof.
  intros Hskip Hrun. revert fn x.
  apply (collect_inv (λ st, ∀ fn x, (fn, x) ∈ applied st → _) self st);
    [by intros ?? ?%elem_of_nil| |done].
  intros pn p an fn f st1 st2 _ IH (t & v & _ & _ & ->)%loop_body_Ok fn' x.
  simpl. rw Hskip. simpl. destruct (isnan_any (flatten t)) eqn:Hnan; [by apply IH|].
  rw elem_of_app list_elem_of_singleton. intros [?|[= _ ->]]; [by eapply IH|done].
Qed.

(** C3.  With [skip_nan_params=True]: at a parameter and attribute whose
    flattened tensor holds a NaN, the iteration for any registered function
    stores the single float NaN under the report key and applies no
    function; when the flattened tensor holds no NaN, the function is
    applied to it and what it returns is the value stored.  In an invocation
    that returns, this iteration takes place for everything the loops reach,
    and no statistic function is applied to a tensor with a NaN. *)
Theorem nan_params_skipped self param_name param attr_name function_name
    function t st :
  _skip_nan_params self = true →
  getattr param attr_name = Ok (Some t) →
  let key := report_key_template (prefix_arg (_prefix self)) param_name
               attr_name function_name in
  let body := loop_body self param_name param attr_name
                (function_name, function) in
  (isnan_any (flatten t) = true →
   body st = Ok {| statistics := <[key := VFloat S754_nan]> (statistics st);
                   applied := applied st |}) ∧
  (isnan_any (flatten t) = false → ∀ v, function (flatten t) = Ok v →
   body st = Ok {| statistics := store key v (statistics st);
                   applied := applied st ++ [(function_name, flatten t)] |}) ∧
  (∀ st', collect self = Ok st' →
     visited self param_name param attr_name function_name function →
     ∃ st1 st2,
       body st1 = Ok st2 ∧
       dom (statistics st2) ⊆ dom (statistics st') ∧
       (isnan_any (flatten t) = true →
        statistics st2 !! key = Some (VFloat S754_nan) ∧
        applied st2 = applied st1 ∧ key ∈ dom (statistics st'))) ∧
  (∀ st' fn x, collect self = Ok st' → (fn, x) ∈ applied st' →
   isnan_any x = false).
Proof.
  intros Hskip Hget key body.
  assert (isnan_any (flatten t) = true → ∀ st1,
    body st1 = Ok {| statistics := <[key := VFloat S754_nan]> (statistics st1);
                     applied := applied st1 |}) as Hnan_body.
  { intros Hnan st1. apply loop_body_Ok. exists t, float_nan.
    rw Hskip Hnan. split_and!; [done|by apply value_of_nan|done]. }
  split_and!.
  - intros Hnan. by apply Hnan_body.
  - intros Hnan v Hv. apply loop_body_Ok. exists t, v.
    rw Hskip Hnan. split_and!; [done|by rw value_of_clean|done].
  - intros st' Hrun Hvis.
    pose proof dom_preorder as Hpre.
    destruct (collect_elem _ self st' _ _ _ _ _ (loop_body_dom self) Hrun Hvis)
      as (st1 & st2 & Hbody & Hdom).
    exists st1, st2. split_and!; [done..|]. intros Hnan.
    unfold body in Hnan_body. rw (Hnan_body Hnan st1) in Hbody.
    injection Hbody as <-. simpl in *. split_and!; [by rw lookup_insert_eq|done|].
    apply Hdom. rw dom_insert. set_solver.
  - intros st' fn x ??. by eapply collect_applied_clean.
Qed.

(** ** Reporting *)

(** The pass only reads the links, the registry, the attributes, the prefix
    and the NaN flag. *)
Lemma collect_ext self1 self2 :
  _links self1 = _links self2 → _statistics self1 = _statistics self2 →
  _attrs self1 = _attrs self2 → _prefix self1 = _prefix self2 →
  _skip_nan_params self1 = _skip_nan_params self2 →
  collect self1 = collect self2.
Proof.
  destruct self1, self2. simpl. by intros -> -> -> -> ->.
Qed.

Lemma call_Ok self manager reported st :
  collect self = Ok st →
  ∃ self',
    __call__ self manager reported
    = Ok (self', if (trigger_call (_trigger self) manager).1
                 then reported ++ [compute_mean
                        (summary_add (_summary self) (statistics st))]
                 else reported) ∧
    _links self' = _links self ∧ _statistics self' = _statistics self ∧
    _attrs self' = _attrs self ∧ _prefix self' = _prefix self ∧
    _skip_nan_params self' = _skip_nan_params self ∧
    _trigger self' = (trigger_call (_trigger self) manager).2 ∧
    _summary self' = if (trigger_call (_trigger self) manager).1
                     then new_summary
                     else summary_add (_summary self) (statistics st).
Proof.
  intros Hst. unfold __call__. rw Hst. simpl.
  destruct (trigger_call (_trigger self) manager) as [[] trigger'];
    eexists; split; done.
Qed.

Lemma call_Raise self manager reported e :
  collect self = Raise e → __call__ self manager reported = Raise e.
Proof. intros Hst. unfold __call__. by rw Hst. Qed.

Lemma call_inv self manager reported self' reported' :
  __call__ self manager reported = Ok (self', reported') →
  ∃ st, collect self = Ok st.
Proof.
  destruct (collect self) as [st|e] eqn:Hst; [by eexists|].
  by rw (call_Raise _ _ _ _ Hst).
Qed.

(** A run in which the trigger never fires hands nothing to the reporter
    and accumulates every collected dictionary. *)
Lemma run_quiet self invocations reported self' reported' :
  run self invocations reported = Ok (self', reported') →
  fires (_trigger self) invocations.*2 = replicate (length invocations) false →
  reported' = reported ∧
  _summary self' = foldl summary_add (_summary self)
                     (collected self invocations) ∧
  _statistics self' = _statistics self ∧ _attrs self' = _attrs self ∧
  _prefix self' = _prefix self ∧
  _skip_nan_params self' = _skip_nan_params self.
Proof.
  revert self reported.
  induction invocations as [|[links manager] rest IH]; intros self reported.
  - by intros [= <- <-] _.
  - simpl. intros ([self1 reported1] & Hcall & Hrun)%bind_Ok [= Hfire Hfires].
    destruct (call_inv _ _ _ _ _ Hcall) as [st Hst].
    destruct (call_Ok _ manager reported _ Hst)
      as (self1' & Hcall' & Hl & Hs & Ha & Hp & Hk & Ht & Hsum).
    rw Hcall' in Hcall. simpl in Hfire, Ht, Hsum, Hcall. rw Hfire in Hcall Hsum.
    injection Hcall as -> <-. simpl in Hrun.
    destruct (IH self1 reported) as (-> & Hsum' & Hs' & Ha' & Hp' & Hk');
      [done|by rw Ht|].
    simpl in Hk, Hp, Ha, Hs. rw Hst. simpl. split_and!; try congruence.
    rw Hsum' Hsum. simpl. f_equal.
    clear -Hs Ha Hp Hk. induction rest as [|[links' ?] rest IH]; [done|].
    simpl. rw (collect_ext (with_links self1 links') (with_links self links')) //.
    destruct (collect _); [|done]. by rw IH.
Qed.

Lemma length_fires (trigger : T) (managers : list Mgr) :
  length (fires trigger managers) = length managers.
Proof.
  revert trigger. induction managers as [|m ms IH]; intros t; [done|].
  simpl. by rw IH.
Qed.

(** The trigger a run leaves behind has answered once per invocation. *)
Lemma run_trigger self invocations reported self' reported' managers :
  run self invocations reported = Ok (self', reported') →
  fires (_trigger self) (invocations.*2 ++ managers)
  = fires (_trigger self) invocations.*2 ++ fires (_trigger self') managers.
Proof.
  revert self reported.
  induction invocations as [|[links manager] rest IH]; intros self reported.
  - by intros [= <- _].
  - simpl. intros ([self1 reported1] & Hcall & Hrun)%bind_Ok.
    destruct (call_inv _ _ _ _ _ Hcall) as [st Hst].
    destruct (call_Ok _ manager reported _ Hst)
      as (self1' & Hcall' & _ & _ & _ & _ & _ & Ht & _).
    rw Hcall' in Hcall. injection Hcall as -> _. simpl in Ht, Hrun.
    f_equal. rw -Ht. by eapply IH.
Qed.
(** C4.  Take an invocation that follows any number of invocations at which
    the trigger did not fire: those handed nothing to the reporter.  If the
    trigger does not fire at this invocation either, nothing is reported and
    the summary, holding every dictionary collected so far, is kept for the
    next invocation.  If it fires, exactly one mapping is handed to the
    reporter, the means of the summary that has accumulated the dictionaries
    of all these invocations, and the summary is replaced with a fresh
    one. *)
Theorem report_on_trigger self invocations links manager reported
    self1 reported1 st :
  run self invocations reported = Ok (self1, reported1) →
  fires (_trigger self) invocations.*2 = replicate (length invocations) false →
  collect (with_links self1 links) = Ok st →
  let accumulated :=
    foldl summary_add (_summary self)
      (collected self invocations ++ [statistics st]) in
  reported1 = reported ∧
  ∃ self2 reported2,
    __call__ (with_links self1 links) manager reported1 = Ok (self2, reported2) ∧
    _trigger self2 = (trigger_call (_trigger self1) manager).2 ∧
    if (trigger_call (_trigger self1) manager).1
    then reported2 = reported1 ++ [compute_mean accumulated] ∧
         _summary self2 = new_summary
    else reported2 = reported1 ∧ _summary self2 = accumulated.
Proof.
  intros Hrun Hquiet Hst accumulated.
  destruct (run_quiet _ _ _ _ _ Hrun Hquiet) as (-> & Hsum & _).
  split; [done|].
  destruct (call_Ok _ manager reported _ Hst)
    as (self2 & Hcall & _ & _ & _ & _ & _ & Ht & Hsum2).
  simpl in Hcall, Ht, Hsum2. rw Hsum in Hcall Hsum2.
  exists self2. eexists. split; [done|]. split; [done|].
  unfold accumulated. rw foldl_snoc.
  by destruct (trigger_call (_trigger self1) manager) as [[] ?].
Qed.

(** ** The registry *)

Lemma dict_get_setitem {V} (d : list (string * V)) name (v : V) :
  dict_get (dict_setitem d name v) name = Some v.
Proof.
  induction d as [|[k w] d IH]; simpl; repeat (case_decide; simpl); done.
Qed.

Lemma dict_get_setitem_ne {V} (d : list (string * V)) name (v : V) other :
  other ≠ name → dict_get (dict_setitem d name v) other = dict_get d other.
Proof.
  intros Hne. induction d as [|[k w] d IH]; simpl;
    repeat (case_decide; simpl); congruence.
Qed.

Lemma dict_setitem_keys_in {V} (d : list (string * V)) name (v : V) :
  name ∈ d.*1 → (dict_setitem d name v).*1 = d.*1.
Proof.
  induction d as [|[k w] d IH]; [by intros ?%elem_of_nil|].
  cbn [dict_setitem]. case_decide as Hk; [done|].
  rw !fmap_cons. intros [?|?]%elem_of_cons; [done|]. by rw IH.
Qed.

Lemma dict_setitem_keys_notin {V} (d : list (string * V)) name (v : V) :
  name ∉ d.*1 → (dict_setitem d name v).*1 = d.*1 ++ [name].
Proof.
  induction d as [|[k w] d IH]; [done|].
  cbn [dict_setitem]. rw !fmap_cons not_elem_of_cons. intros [? ?].
  case_decide as Hk; [done|]. rw fmap_cons IH //.
Qed.

Lemma dict_setitem_NoDup {V} (d : list (string * V)) name (v : V) :
  NoDup d.*1 → NoDup (dict_setitem d name v).*1.
Proof.
  intros Hd. destruct (decide (name ∈ d.*1)).
  - by rw dict_setitem_keys_in.
  - rw dict_setitem_keys_notin //.
    apply NoDup_app. split_and!; [done|set_solver|apply NoDup_singleton].
Qed.

(** The registry the constructor builds has distinct names. *)
Lemma dict_NoDup {V} (items : list (string * V)) : NoDup (dict items).*1.
Proof.
  unfold dict. induction items as [|[k w] items IH] using rev_ind.
  - apply NoDup_nil_2.
  - rw foldl_snoc. by apply dict_setitem_NoDup.
Qed.

Lemma dict_setitem_elem {V} (d : list (string * V)) name (v : V) :
  (name, v) ∈ dict_setitem d name v.
Proof.
  induction d as [|[k w] d IH]; simpl; [by left|].
  case_decide as Hk; [subst; by left|by right].
Qed.

(** With distinct keys, only the function just set goes by its name. *)
Lemma dict_setitem_elem_inv {V} (d : list (string * V)) name (v : V) w :
  NoDup d.*1 → (name, w) ∈ dict_setitem d name v → w = v.
Proof.
  induction d as [|[k' w'] d IH]; simpl.
  - by intros _ [= ->]%list_elem_of_singleton.
  - intros [Hk' Hd]%NoDup_cons. case_decide as Hk.
    + subst k'. intros [[= ->]|Hin]%elem_of_cons; [done|].
      destruct Hk'. apply list_elem_of_fmap. by exists (name, w).
    + intros [[= ? _]|?]%elem_of_cons; [done|by apply IH].
Qed.

(** Everything the loops reach leaves its keys in the dictionary. *)
Lemma collect_keys self st pn p an fn f :
  collect self = Ok st → visited self pn p an fn f →
  ∃ t v st1 st2,
    getattr p an = Ok (Some t) ∧
    value_of (_skip_nan_params self) f (flatten t) = Ok v ∧
    loop_body self pn p an (fn, f) st1 = Ok st2 ∧
    statistics st2
    = store (report_key_template (prefix_arg (_prefix self)) pn an fn) v
        (statistics st1) ∧
    applied st2
    = (if _skip_nan_params self && isnan_any (flatten t)
       then applied st1 else applied st1 ++ [(fn, flatten t)]) ∧
    ∀ k, k ∈ keys_of (report_key_template (prefix_arg (_prefix self)) pn an fn) v →
         k ∈ dom (statistics st).
Proof.
  intros Hrun Hvis.
  pose proof dom_preorder as Hpre.
  destruct (collect_elem _ self st pn p an fn f (loop_body_dom self) Hrun Hvis)
    as (st1 & st2 & Hbody & Hdom).
  pose proof Hbody as (t & v & Hget & Hv & Hst2)%loop_body_Ok.
  exists t, v, st1, st2. split_and!; [done..|by rw Hst2|by rw Hst2|].
  intros k Hk. apply Hdom. rw Hst2. simpl. rw dom_store. set_solver.
Qed.

(** Colliding keys overwrite one another; an entry that every iteration
    writing its key agrees on is in the dictionary of the pass. *)
Lemma collect_lookup self st pn p an fn f t v k x :
  collect self = Ok st → visited self pn p an fn f →
  getattr p an = Ok (Some t) →
  value_of (_skip_nan_params self) f (flatten t) = Ok v →
  (k, x) ∈ items_of (report_key_template (prefix_arg (_prefix self)) pn an fn) v →
  (∀ pn' p' an' fn' f' t' v' x',
     visited self pn' p' an' fn' f' → getattr p' an' = Ok (Some t') →
     value_of (_skip_nan_params self) f' (flatten t') = Ok v' →
     (k, x') ∈ items_of
       (report_key_template (prefix_arg (_prefix self)) pn' an' fn') v' →
     x' = x) →
  statistics st !! k = Some x.
Proof.
  intros Hrun Hvis Hget Hv Hitem Hagree.
  destruct (collect_keys self st pn p an fn f Hrun Hvis)
    as (t' & v' & _ & _ & Hget' & Hv' & _ & _ & _ & Hkeys).
  rw Hget in Hget'. injection Hget' as <-. rw Hv in Hv'. injection Hv' as <-.
  assert (k ∈ dom (statistics st)) as [x' Hx']%elem_of_dom.
  { apply Hkeys. rw keys_of_items. apply list_elem_of_fmap. by exists (k, x). }
  destruct (collect_entries _ _ _ _ Hrun Hx')
    as (pn' & p' & an' & fn' & f' & t' & v' & Hvis' & Hget' & Hv' & Hitem').
  by rw Hx' (Hagree _ _ _ _ _ _ _ _ Hvis' Hget' Hv' Hitem').
Qed.

(** C5, amended.  [register_statistics(name, function)] sets the entry for
    [name] in the registry to [function], appending it or overwriting the
    one that was there, leaves every other entry alone and changes nothing
    else.  In a later invocation that returns, every parameter and attribute
    the loops reach has an iteration for [name]: the value it stores is that
    of [function] on the flattened tensor, unless [skip_nan_params] put the
    float NaN in its place without calling [function]; the dictionary of the
    invocation has the report key ending in [name] when that value is not a
    tensor of more than one element, and the key followed by [/{index}] for
    each of its rows when it is. *)
Theorem register_statistics_effective self name function :
  let self' := register_statistics self name function in
  dict_get (_statistics self') name = Some function ∧
  (∀ other, other ≠ name →
     dict_get (_statistics self') other = dict_get (_statistics self) other) ∧
  (NoDup (_statistics self).*1 →
     NoDup (_statistics self').*1 ∧
     ∀ f, (name, f) ∈ _statistics self' → f = function) ∧
  (_links self' = _links self ∧ _attrs self' = _attrs self ∧
   _prefix self' = _prefix self ∧ _trigger self' = _trigger self ∧
   _summary self' = _summary self ∧
   _skip_nan_params self' = _skip_nan_params self) ∧
  ∀ st m param_name param attr_name,
    collect self' = Ok st →
    Link m ∈ _links self → (param_name, param) ∈ m →
    attr_name ∈ _attrs self →
    ∃ t v st1 st2,
      getattr param attr_name = Ok (Some t) ∧
      (if _skip_nan_params self && isnan_any (flatten t)
       then v = VFloat S754_nan ∧ applied st2 = applied st1
       else function (flatten t) = Ok v ∧
            applied st2 = applied st1 ++ [(name, flatten t)]) ∧
      let key := prefix_arg (_prefix self) +:+ param_name +:+ "/" +:+
                 attr_name +:+ "/" +:+ name in
      loop_body self' param_name param attr_name (name, function) st1
      = Ok st2 ∧
      statistics st2 = store key v (statistics st1) ∧
      (is_multi v = false → key ∈ dom (statistics st)) ∧
      (∀ rows i row, v = VTensor rows → 1 < numel rows →
         iter_tensor rows !! i = Some row →
         key +:+ "/" +:+ pretty i ∈ dom (statistics st)).
Proof.
  intros self'. split_and!; try done.
  - apply dict_get_setitem.
  - intros other ?. by apply dict_get_setitem_ne.
  - intros Hnd. split; [by apply dict_setitem_NoDup|].
    intros f. by apply dict_setitem_elem_inv.
  - intros st m pn p an Hrun Hm Hp Han.
    destruct (collect_keys self' st pn p an name function Hrun)
      as (t & v & st1 & st2 & Hget & Hv & Hbody & Hst2 & Happ & Hkeys).
    { exists m. split_and!; [done..|]. apply dict_setitem_elem. }
    exists t, v, st1, st2. split; [done|]. split.
    { unfold value_of in Hv. simpl in Hv, Happ.
      destruct (_skip_nan_params self && isnan_any (flatten t)); [|done].
      by injection Hv as <-. }
    cbv zeta. split_and!; [done..| |].
    + intros Hsingle. apply Hkeys. rw keys_of_single //. set_solver.
    + intros rows i row -> Hn Hrow. apply Hkeys. simpl. rw bool_decide_true //.
      apply list_elem_of_fmap. exists i. split; [done|].
      apply elem_of_seq. apply lookup_lt_Some in Hrow. lia.
Qed.

(** ** Substrings of report keys *)

Lemma chars_app a b : chars (a +:+ b) = chars a ++ chars b.
Proof. induction a as [|c a IH]; [done|]. simpl. by rw -IH. Qed.

Lemma chars_inj a b : chars a = chars b → a = b.
Proof.
  revert b. induction a as [|c a IH]; intros [|c' b]; try done.
  intros [= -> ?]. f_equal. by apply IH.
Qed.

Lemma chars_surj l : ∃ s, chars s = l.
Proof.
  induction l as [|c l [s Hs]]; [by exists ""|].
  exists (String c s). simpl. by rw Hs.
Qed.

Lemma contains_chars sub s :
  contains sub s ↔ ∃ x y, chars s = x ++ chars sub ++ y.
Proof.
  split.
  - intros (before & after & ->). exists (chars before), (chars after).
    by rw !chars_app.
  - intros (x & y & Hs).
    destruct (chars_surj x) as [before Hx], (chars_surj y) as [after Hy].
    exists before, after. apply chars_inj. by rw !chars_app Hx Hy.
Qed.

(** A substring without the separator lies on one side of it. *)
Lemma contains_sep sub a b c :
  c ∉ chars sub → contains sub (a +:+ String c b) →
  contains sub a ∨ contains sub b.
Proof.
  intros Hc (x & y & Hs)%contains_chars. rw !contains_chars.
  rw chars_app in Hs. simpl in Hs.
  apply app_eq_inv in Hs as [(k & Ha & Hk)|(k & Hx & Hk)].
  - left. symmetry in Hk.
    apply app_eq_inv in Hk as [(k' & Hsub & Hk')|(k' & Hsub & Hk')].
    + exists x, k'. by rw Ha Hsub.
    + destruct k' as [|c' k'].
      * exists x, []. rw Ha Hsub. by rw !app_nil_r.
      * simpl in Hk'. injection Hk' as <- _. destruct Hc. rw Hsub. set_solver.
  - destruct k as [|c' k].
    + destruct (chars sub) as [|c' l] eqn:Hsub.
      * left. exists (chars a), []. simpl. by rw app_nil_r.
      * simpl in Hk. injection Hk as <- _. destruct Hc. by left.
    + right. simpl in Hk. injection Hk as _ ->. by exists k, y.
Qed.

(** A string lacking a character of [sub] does not contain [sub]. *)
Lemma contains_missing sub s c :
  c ∈ chars sub → c ∉ chars s → ¬ contains sub s.
Proof.
  intros Hsub Hs (x & y & Heq)%contains_chars. apply Hs. rw Heq. set_solver.
Qed.

Lemma contains_inner l sub r s : contains (l +:+ sub +:+ r) s → contains sub s.
Proof.
  rw !contains_chars. intros (x & y & ->).
  exists (x ++ chars l), (chars r ++ y). by rw !chars_app -!app_assoc.
Qed.

Lemma pretty_N_go_chars c x s :
  (∀ n, pretty_N_char n ≠ c) → c ∉ chars s → c ∉ chars (pretty_N_go x s).
Proof.
  intros Hc. revert s. induction (N.lt_wf_0 x) as [x _ IH]; intros s Hs.
  assert (x = 0 ∨ 0 < x)%N as [->|?] by lia; [done|].
  rw pretty_N_go_step //. apply IH; [by apply N.div_lt|].
  simpl. rw not_elem_of_cons. split; [|done]. intros ->. by eapply Hc.
Qed.

(** The decimal digits of an index hold no letter [g]. *)
Lemma pretty_nat_no_g (i : nat) : "g"%char ∉ chars (pretty i).
Proof.
  unfold pretty, pretty_nat, pretty, pretty_N. case_decide.
  - set_solver.
  - apply pretty_N_go_chars; [|set_solver].
    intros n. unfold pretty_N_char. by repeat case_match.
Qed.

Lemma string_app_assoc a b c : (a +:+ b) +:+ c = a +:+ b +:+ c.
Proof. apply chars_inj. by rw !chars_app app_assoc. Qed.

Lemma data_no_grad : ¬ contains "grad" "data".
Proof. apply (contains_missing _ _ "g"%char); set_solver. Qed.

(** The substring [grad] of a key of the attribute [data] comes from the
    prefix, the parameter name or the function name. *)
Lemma grad_in_data_key prefix pn fn suffix :
  (suffix = "" ∨ ∃ i : nat, suffix = "/" +:+ pretty i) →
  contains "grad"
    ((prefix_arg prefix +:+ pn +:+ "/data/" +:+ fn) +:+ suffix) →
  (∃ p, prefix = Some p ∧ contains "grad" p) ∨
  contains "grad" pn ∨ contains "grad" fn.
Proof.
  intros Hsuffix Hkey.
  assert (contains "grad" (prefix_arg prefix +:+ pn +:+ "/data/" +:+ fn))
    as Hbase.
  { destruct Hsuffix as [->|[i ->]].
    - destruct Hkey as (x & y & Hkey). exists x, y.
      rw -Hkey. apply chars_inj. by rw !chars_app /= app_nil_r.
    - apply (contains_sep "grad" _ (pretty i) "/") in Hkey as [?|Hi];
        [done| |set_solver].
      destruct (contains_missing "grad" (pretty i) "g"%char);
        [set_solver|apply pretty_nat_no_g|done]. }
  clear Hkey Hsuffix.
  assert (contains "grad" (pn +:+ "/data/" +:+ fn) →
          contains "grad" pn ∨ contains "grad" fn) as Hrest.
  { intros [?|Hrest]%(contains_sep "grad" pn ("data/" +:+ fn) "/");
      [by left| |set_solver].
    apply (contains_sep "grad" "data" fn "/") in Hrest as [?|?];
      [by destruct data_no_grad|by right|set_solver]. }
  destruct prefix as [p|]; simpl in Hbase; [|by right; apply Hrest].
  case_decide; [by right; apply Hrest|].
  rw string_app_assoc in Hbase.
  apply (contains_sep "grad" p _ "/") in Hbase as [?|?];
    [left; by exists p|by right; apply Hrest|set_solver].
Qed.

Lemma elem_of_select_attrs report_params report_grads attr_name :
  attr_name ∈ select_attrs report_params report_grads ↔
  (attr_name = "data" ∧ report_params = true) ∨
  (attr_name = "grad" ∧ report_grads = true).
Proof.
  unfold select_attrs. destruct report_params, report_grads; set_solver.
Qed.

(** C6, amended.  The attributes scanned are those the flags select:
    [data] iff [report_params], [grad] iff [report_grads].  With
    [report_params=True] and [report_grads=False] every entry of the
    dictionary has a key [{prefix}{param_name}/data/{function_name}],
    followed by [/{index}] for a row: none has [grad] as its attribute, and
    a key contains [/grad/] only if the prefix, the parameter name or the
    function name contains [grad].  With both flags false an invocation
    collects nothing and applies no function. *)
Theorem attrs_from_flags self report_params report_grads :
  _attrs self = select_attrs report_params report_grads →
  (∀ attr_name,
     attr_name ∈ _attrs self ↔
     (attr_name = "data" ∧ report_params = true) ∨
     (attr_name = "grad" ∧ report_grads = true)) ∧
  (report_params = true → report_grads = false →
   ∀ st key x, collect self = Ok st → statistics st !! key = Some x →
   ∃ m param_name param function_name function,
     Link m ∈ _links self ∧ (param_name, param) ∈ m ∧
     (function_name, function) ∈ _statistics self ∧
     let base := prefix_arg (_prefix self) +:+ param_name +:+ "/data/" +:+
                 function_name in
     (key = base ∨ ∃ i : nat, key = base +:+ "/" +:+ pretty i) ∧
     (contains "/grad/" key →
      (∃ p, _prefix self = Some p ∧ contains "grad" p) ∨
      contains "grad" param_name ∨ contains "grad" function_name)) ∧
  (report_params = false → report_grads = false →
   (∀ st, collect self = Ok st → st = empty_pass) ∧
   (links_ok self → collect self = Ok empty_pass)).
Proof.
  intros Hattrs. split_and!.
  - intros attr_name. rw Hattrs. apply elem_of_select_attrs.
  - intros -> -> st key x Hrun Hkey.
    destruct (collect_entries _ _ _ _ Hrun Hkey)
      as (pn & p & an & fn & f & t & v & (m & Hm & Hp & Han & Hf) & _ & _ & Hitem).
    rw Hattrs in Han. apply list_elem_of_singleton in Han as ->.
    exists m, pn, p, fn, f. split_and!; [done..|]. cbv zeta.
    assert (key = (prefix_arg (_prefix self) +:+ pn +:+ "/data/" +:+ fn) +:+ ""
            ∨ ∃ i : nat, key = (prefix_arg (_prefix self) +:+ pn +:+ "/data/" +:+ fn)
                               +:+ "/" +:+ pretty i) as Hform.
    { apply elem_of_items_of in Hitem
        as [(_ & -> & _)|(_ & i & _ & _ & _ & _ & -> & _)].
      - left. apply chars_inj. by rw !chars_app /= app_nil_r.
      - right. by exists i. }
    split.
    + destruct Hform as [->|?]; [left|by right].
      apply chars_inj. by rw !chars_app /= app_nil_r.
    + intros Hgrad%(contains_inner "/" "grad" "/").
      destruct Hform as [->|[i ->]];
        eapply grad_in_data_key; try done; [by left|right; by exists i].
  - intros -> ->. split.
    + intros st. apply (collect_inv (λ st, st = empty_pass)); [done|].
      intros ??????? (_ & _ & _ & Han & _). rw Hattrs in Han.
      by apply elem_of_nil in Han.
    + intros Hlinks. destruct (collect_total self Hlinks) as [st Hst].
      { intros ?????? (_ & _ & _ & Han & _). rw Hattrs in Han.
        by apply elem_of_nil in Han. }
      rw Hst. f_equal. revert Hst.
      apply (collect_inv (λ st, st = empty_pass)); [done|].
      intros ??????? (_ & _ & _ & Han & _). rw Hattrs in Han.
      by apply elem_of_nil in Han.
Qed.

(** ** The constructor *)

Section constructor.
Context `{!Torch}.

Lemma init_registry_NoDup links stats report_params report_grads prefix
    (trigger : Spec) skip_nan_params :
  NoDup (_statistics (__init__ links stats report_params report_grads prefix
                        trigger skip_nan_params)).*1.
Proof. destruct stats; apply dict_NoDup. Qed.

Lemma normalize_links_ok links :
  (∀ ms, links ≠ IterableOf ms) →
  ∀ l, l ∈ normalize_links links → ∃ m, l = Link m.
Proof.
  destruct links as [m|ms|ms|m children|ms]; simpl; intros Hlinks l.
  - intros ->%list_elem_of_singleton. by exists m.
  - intros (m & -> & _)%list_elem_of_fmap. by exists m.
  - intros (m & -> & _)%list_elem_of_fmap. by exists m.
  - intros ->%list_elem_of_singleton. by exists m.
  - by destruct (Hlinks ms).
Qed.

Lemma collect_empty_registry self :
  _statistics self = [] →
  (∀ st, collect self = Ok st → st = empty_pass) ∧
  (links_ok self → collect self = Ok empty_pass).
Proof.
  intros Hstats.
  assert (∀ st, collect self = Ok st → st = empty_pass) as Hempty.
  { intros st. apply (collect_inv (λ st, st = empty_pass)); [done|].
    intros ??????? (_ & _ & _ & _ & Hf). rw Hstats in Hf.
    by apply elem_of_nil in Hf. }
  split; [done|]. intros Hlinks.
  destruct (collect_total self Hlinks) as [st Hst].
  - intros ?????? (_ & _ & _ & _ & Hf). rw Hstats in Hf.
    by apply elem_of_nil in Hf.
  - rw Hst. f_equal. by apply Hempty.
Qed.

(** C7.  Constructed with [statistics=None] or [statistics={}], the
    extension has an empty registry; whatever the links hold, an invocation
    collects the empty mapping and applies no statistic function, and over
    modules it does return. *)
Theorem empty_registry_empty_mapping stats links report_params
    report_grads prefix (trigger : Spec) skip_nan_params :
  stats = StatNone ∨ stats = StatDict [] →
  let self := __init__ links stats report_params report_grads prefix
                trigger skip_nan_params in
  _statistics self = [] ∧
  (∀ st, collect self = Ok st → statistics st = ∅ ∧ applied st = []) ∧
  ((∀ ms, links ≠ IterableOf ms) → collect self = Ok empty_pass).
Proof.
  intros Hstats self.
  assert (_statistics self = []) as Hempty by by destruct Hstats as [-> | ->].
  destruct (collect_empty_registry self Hempty) as [Hnone Hruns].
  split_and!; [done| |].
  - by intros st ->%Hnone.
  - intros Hlinks. apply Hruns. intros l. by apply normalize_links_ok.
Qed.

Lemma for_each_app {A St} (xs ys : list A) (body : A → St → result St) s :
  for_each (xs ++ ys) body s = for_each xs body s ≫= for_each ys body.
Proof.
  revert s. induction xs as [|x xs IH]; intros s; [done|].
  simpl. destruct (body x s) as [s'|e]; [apply IH|done].
Qed.

(** C8.  What the constructor makes of [links] and what an invocation does
    with it.  A list or a tuple of containers is kept in the order given,
    and an invocation walks it from first to last; a container alone makes a
    sequence of one, also a container that is itself iterable, whose
    children are not walked.  Any other iterable of containers (a generator,
    a set) is not walked either: it is kept whole as one link, and every
    invocation raises [AttributeError], whatever the containers, the
    statistics and the flags.  Neither an invocation nor a registration
    changes the sequence. *)
Theorem links_normalized stats report_params report_grads prefix
    (trigger : Spec) skip_nan_params :
  let init links := __init__ links stats report_params report_grads prefix
                      trigger skip_nan_params in
  (∀ ms, _links (init (IterableOf ms)) = [NotALink ms] ∧
         collect (init (IterableOf ms)) = Raise AttributeError ∧
         ∀ manager reported,
           __call__ (init (IterableOf ms)) manager reported
           = Raise AttributeError) ∧
  (∀ ms, _links (init (ListOf ms)) = Link <$> ms ∧
         init (TupleOf ms) = init (ListOf ms)) ∧
  (∀ m children, init (OneLink m) = init (ListOf [m]) ∧
                 init (IterableModule m children) = init (ListOf [m])) ∧
  (∀ ms1 ms2,
     collect (init (ListOf (ms1 ++ ms2)))
     = collect (init (ListOf ms1))
       ≫= for_each (Link <$> ms2) (collect_link (init (ListOf ms1)))) ∧
  (∀ links manager reported self' reported',
     __call__ (init links) manager reported = Ok (self', reported') →
     _links self' = _links (init links)) ∧
  (∀ links name function,
     _links (register_statistics (init links) name function)
     = _links (init links)).
Proof.
  intros init. split_and!; try done.
  - intros ms1 ms2. unfold collect. simpl. by rw fmap_app for_each_app.
  - intros links manager reported self' reported' Hcall.
    destruct (call_inv _ _ _ _ _ Hcall) as [st Hst].
    destruct (call_Ok _ manager reported _ Hst) as (self1 & Hcall' & Hl & _).
    rw Hcall' in Hcall. by injection Hcall as <- _.
Qed.

(** C10.  Constructed with [prefix=''], the extension collects, invocation
    for invocation, the very mapping it collects when constructed with
    [prefix=None], reports the same and accumulates the same.  In both cases
    nothing is put before the parameter name: every key of the mapping is
    [{param_name}/{attr_name}/{function_name}], or that with an index, for a
    parameter of a link, a scanned attribute and a registered function;
    every such combination has its keys in the mapping; and a key begins
    with [/] only if a parameter name is empty or begins with [/]. *)
Theorem empty_prefix_is_no_prefix links stats report_params report_grads
    (trigger : Spec) skip_nan_params :
  let with_empty := __init__ links stats report_params report_grads
                      (Some "") trigger skip_nan_params in
  let with_none := __init__ links stats report_params report_grads
                     None trigger skip_nan_params in
  collect with_empty = collect with_none ∧
  (∀ manager reported,
     __call__ with_none manager reported
     = (λ r, (with_prefix r.1 None, r.2)) <$> __call__ with_empty manager reported) ∧
  (∀ invocations reported,
     run with_none invocations reported
     = (λ r, (with_prefix r.1 None, r.2))
       <$> run with_empty invocations reported) ∧
  (∀ st,
     collect with_empty = Ok st →
     (∀ key x,
        statistics st !! key = Some x →
        ∃ param_name param attr_name function_name function t v,
          visited with_empty param_name param attr_name function_name
            function ∧
          getattr param attr_name = Ok (Some t) ∧
          value_of skip_nan_params function (flatten t) = Ok v ∧
          let base := param_name +:+ "/" +:+ attr_name +:+ "/" +:+
                      function_name in
          ((∀ rows, v = VTensor rows → numel rows ≤ 1) ∧
           key = base ∧ x = v) ∨
          (∃ rows i row, v = VTensor rows ∧ 1 < numel rows ∧
             iter_tensor rows !! i = Some row ∧
             key = base +:+ "/" +:+ pretty i ∧ x = VTensor row)) ∧
     (∀ param_name param attr_name function_name function,
        visited with_empty param_name param attr_name function_name
          function →
        ∃ t v,
          getattr param attr_name = Ok (Some t) ∧
          value_of skip_nan_params function (flatten t) = Ok v ∧
          ∀ key,
            key ∈ keys_of (param_name +:+ "/" +:+ attr_name +:+ "/" +:+
                           function_name) v →
            key ∈ dom (statistics st)) ∧
     ((∀ m param_name param,
         Link m ∈ _links with_empty → (param_name, param) ∈ m →
         param_name ≠ "" ∧ ∀ rest, param_name ≠ String "/" rest) →
      ∀ key rest, key ∈ dom (statistics st) → key ≠ String "/" rest)).
Proof.
  intros with_empty with_none.
  assert (∀ self, collect (with_prefix self (Some ""))
                  = collect (with_prefix self None)) as Hcollect by done.
  assert (∀ self manager reported,
    __call__ (with_prefix self None) manager reported
    = (λ r, (with_prefix r.1 None, r.2))
      <$> __call__ (with_prefix self (Some "")) manager reported) as Hcall.
  { intros self manager reported. unfold __call__. rw Hcollect.
    destruct (collect _) as [st|e]; [|done]. simpl.
    by destruct (trigger_call (_trigger self) manager) as [[] ?]. }
  split_and!.
  - done.
  - apply (Hcall with_none).
  - intros invocations. change with_none with (with_prefix with_empty None).
    change with_empty with (with_prefix with_empty (Some "")) at 2.
    generalize with_empty. clear with_empty with_none.
    induction invocations as [|[links' manager] rest IH]; intros self reported;
      [done|].
    simpl.
    change (with_links (with_prefix self None) links')
      with (with_prefix (with_links self links') None).
    change (with_links (with_prefix self (Some "")) links')
      with (with_prefix (with_links self links') (Some "")).
    rw Hcall.
    destruct (__call__ (with_prefix (with_links self links') (Some "")) _ _)
      as [[self1 reported1]|e] eqn:Hfirst; [|done]. simpl.
    rw IH. f_equal. f_equal.
    unfold __call__ in Hfirst.
    destruct (collect _) as [st|]; [|done]. simpl in Hfirst.
    by destruct (trigger_call (_trigger self) manager) as [[] ?];
      injection Hfirst as <- <-.
  - intros st Hrun.
    assert (∀ key x,
      statistics st !! key = Some x →
      ∃ pn p an fn f t v,
        visited with_empty pn p an fn f ∧
        getattr p an = Ok (Some t) ∧
        value_of skip_nan_params f (flatten t) = Ok v ∧
        (key, x) ∈ items_of (pn +:+ "/" +:+ an +:+ "/" +:+ fn) v)
      as Hentries.
    { intros key x Hkey.
      destruct (collect_entries _ _ _ _ Hrun Hkey)
        as (pn & p & an & fn & f & t & v & Hvis & Hget & Hv & Hitem).
      by exists pn, p, an, fn, f, t, v. }
    split_and!.
    + intros key x Hkey.
      destruct (Hentries key x Hkey)
        as (pn & p & an & fn & f & t & v & Hvis & Hget & Hv & Hitem).
      exists pn, p, an, fn, f, t, v. split_and!; [done..|].
      apply elem_of_items_of in Hitem as [(Hsingle & -> & ->)|Hrows];
        [left|by right].
      split; [|done]. intros rows ->. simpl in Hsingle.
      apply bool_decide_eq_false in Hsingle. lia.
    + intros pn p an fn f Hvis.
      destruct (collect_keys _ _ _ _ _ _ _ Hrun Hvis)
        as (t & v & _ & _ & Hget & Hv & _ & _ & _ & Hdom).
      by exists t, v.
    + intros Hnames key rest [x Hkey]%elem_of_dom ->.
      destruct (Hentries _ x Hkey)
        as (pn & p & an & fn & f & t & v & (m & Hm & Hp & _) & _ & _ & Hitem).
      destruct (Hnames m pn p Hm Hp) as [Hne Hslash].
      assert (∃ tail, String "/" rest = pn +:+ tail) as [tail Heq].
      { apply elem_of_items_of in Hitem
          as [(_ & -> & _)|(_ & i & _ & _ & _ & _ & -> & _)].
        - by eexists.
        - unfold indexed_key. rw !string_app_assoc. by eexists. }
      destruct pn as [|c pn]; [done|].
      injection Heq as <- _. by destruct (Hslash pn).
Qed.

End constructor.

End proofs.

(** * The parameters in the store *)

Section inplace_proofs.
Context {S Spec T Mgr : Type}.
Context `{!DictSummary S, !TriggerModule Spec T Mgr}.
Implicit Types (self : InPlace.ParameterStatistics S T) (st : pass).
Implicit Types (h : InPlace.heap) (obj : InPlace.tensor_ref).








End inplace_proofs.

(** * The modelled collaborators *)

Lemma units_replicate (l : list unit) : l = replicate (length l) ().
Proof. induction l as [|[] l IH]; [done|]. simpl. by f_equal. Qed.

(** The modelled trigger is quiet until the count reaches the period. *)
Lemma interval_trigger_quiet n c k :
  c + k < n → fires (n, c) (replicate k ()) = replicate k false.
Proof.
  revert c. induction k as [|k IH]; intros c Hc; [done|].
  simpl. rw IH; [lia|]. f_equal.
  apply bool_decide_eq_false. rw Nat.mod_small; lia.
Qed.

Lemma interval_trigger_period n c k :
  c + k + 1 = n →
  fires (n, c) (replicate k () ++ [()]) = replicate k false ++ [true].
Proof.
  revert c. induction k as [|k IH]; intros c Hc; simpl.
  - f_equal. apply bool_decide_eq_true.
    replace (c + 1) with n by lia. apply Nat.Div0.mod_same.
  - rw IH; [lia|]. f_equal.
    apply bool_decide_eq_false. rw Nat.mod_small; lia.
Qed.

Lemma mean_summary_lookup key ds :
  foldl mean_summary_add ∅ ds !! key
  = match observations key ds with
    | [] => None
    | xs => Some (f64_sum xs, Z.of_nat (length xs))
    end.
Proof.
  induction ds as [|d ds IH] using rev_ind; [done|].
  rw foldl_snoc. unfold mean_summary_add at 1. rw lookup_merge IH.
  unfold observations. rw omap_app. clear IH.
  assert (omap (λ d : gmap string value, d !! key ≫= scalar_of) [d]
          = option_list (d !! key ≫= scalar_of)) as ->.
  { cbn. by destruct (d !! key ≫= scalar_of). }
  destruct (d !! key) as [v|]; [destruct (scalar_of v) as [x|] eqn:Hv|];
    destruct (omap _ ds) as [|y ys];
    cbn -[f64_add f64 f64_sum Z.of_nat Z.add length]; rw ?Hv;
    cbn -[f64_add f64 f64_sum Z.of_nat Z.add length]; rw ?app_nil_r;
    try done.
  destruct (ys ++ [x]) as [|z zs] eqn:Hys; [by destruct ys|]. rw -Hys.
  unfold f64_sum. rw (foldl_snoc f64_add (f64 0) (y :: ys) x).
  do 2 f_equal. rw (length_app (y :: ys) [x]) /=. lia.
Qed.

(** The means the modelled summary reports are, per key, the binary64 mean
    of the scalars that the dictionaries fed to it held under the key. *)
Lemma mean_summary_reports key ds :
  compute_mean (foldl summary_add new_summary ds) !! key
  = match observations key ds with
    | [] => None
    | xs => Some (VFloat (f64_mean xs))
    end.
Proof.
  simpl. unfold mean_summary_compute. rw lookup_fmap mean_summary_lookup.
  by destruct (observations key ds).
Qed.

(** With the modelled collaborators: constructed with a trigger of period
    [n], the extension reports nothing at its first [n - 1] invocations and
    at the [n]-th exactly one mapping, the means per key of what these [n]
    invocations collected, and starts afresh. *)
Lemma report_every_n
    (self : ParameterStatistics (gmap string (spec_float * Z)) (nat * nat))
    n invocations links self1 reported1 st :
  _trigger self = get_trigger n → _summary self = new_summary →
  length invocations + 1 = n →
  run self invocations [] = Ok (self1, reported1) →
  collect (with_links self1 links) = Ok st →
  reported1 = [] ∧
  ∃ self2 means,
    __call__ (with_links self1 links) () reported1 = Ok (self2, [means]) ∧
    _summary self2 = new_summary ∧
    ∀ key,
      means !! key
      = match observations key (collected self invocations ++ [statistics st])
        with
        | [] => None
        | xs => Some (VFloat (f64_mean xs))
        end.
Proof.
  intros Htrigger Hsummary Hn Hrun Hst.
  assert (fires (_trigger self) (invocations.*2 ++ [()])
          = replicate (length invocations) false ++ [true]) as Hfires.
  { rw Htrigger (units_replicate invocations.*2) length_fmap.
    apply interval_trigger_period. simpl. lia. }
  rw (run_trigger _ _ _ _ _ [()] Hrun) in Hfires.
  apply app_inj_1 in Hfires as [Hquiet [= Hfire]];
    [|by rw length_fires length_replicate length_fmap].
  destruct (run_quiet _ _ _ _ _ Hrun Hquiet) as (-> & Hsum & _).
  split; [done|].
  destruct (call_Ok _ () [] _ Hst)
    as (self2 & Hcall & _ & _ & _ & _ & _ & _ & Hsum2).
  simpl in Hcall, Hsum2. rw Hfire in Hcall Hsum2.
  exists self2. eexists. split_and!; [done..|].
  intros key. rw Hsum Hsummary -foldl_snoc. apply mean_summary_reports.
Qed.

(** * Further properties of the pass *)

(** ** The pass as one loop over its iterations *)

Section more_proofs.
Context {S T : Type}.
Implicit Types (self : ParameterStatistics S T) (st : pass).
Implicit Types (d : gmap string value) (t : tensor) (v : value).

Lemma for_each_bind {A B St} (xs : list A) (f : A → list B)
    (body : B → St → result St) (s : St) :
  for_each (xs ≫= f) body s = for_each xs (λ x, for_each (f x) body) s.
Proof.
  revert s. induction xs as [|x xs IH]; intros s; [done|].
  rw bind_cons for_each_app. simpl.
  destruct (for_each (f x) body s) as [s'|e]; [apply IH|done].
Qed.

Lemma for_each_singleton {A St} (x : A) (body : A → St → result St) s :
  for_each [x] body s = body x s.
Proof. simpl. by destruct (body x s). Qed.

Lemma for_each_ext {A St} (xs : list A) (body1 body2 : A → St → result St) s :
  (∀ x s, x ∈ xs → body1 x s = body2 x s) →
  for_each xs body1 s = for_each xs body2 s.
Proof.
  revert s. induction xs as [|x xs IH]; intros s Hbody; [done|].
  simpl. rw Hbody; [by left|].
  destruct (body2 x s) as [s'|e]; [|done]. simpl.
  apply IH. intros ???. apply Hbody. by right.
Qed.

Lemma collect_link_iterations self m s :
  collect_link self (Link m) s
  = for_each (module_iterations self m) (iterate self) s.
Proof.
  unfold collect_link, module_iterations. simpl.
  rw for_each_bind. apply for_each_ext. intros [pn p] s1 _.
  unfold collect_param. rw for_each_bind. apply for_each_ext.
  intros an s2 _. rw for_each_bind. apply for_each_ext.
  intros [fn f] s3 _. by rw for_each_singleton.
Qed.

(** A pass over modules is one loop over its iterations. *)
Lemma collect_iterations self ms :
  _links self = Link <$> ms →
  collect self = for_each (iterations self ms) (iterate self) empty_pass.
Proof.
  intros Hlinks. unfold collect, iterations. rw Hlinks for_each_bind.
  clear Hlinks. generalize empty_pass. induction ms as [|m ms IH]; intros s; [done|].
  rw fmap_cons. cbn [for_each]. rw collect_link_iterations.
  destruct (for_each _ (iterate self) s) as [s'|e]; [apply IH|done].
Qed.

Lemma elem_of_iterations self ms pn p an fn f :
  (pn, p, an, (fn, f)) ∈ iterations self ms ↔
  ∃ m, m ∈ ms ∧ (pn, p) ∈ m ∧ an ∈ _attrs self ∧ (fn, f) ∈ _statistics self.
Proof.
  unfold iterations, module_iterations. rw list_elem_of_bind. split.
  - intros (m & Hit & Hm). exists m. split; [done|].
    apply list_elem_of_bind in Hit as ([pn' p'] & Hit & Hp).
    apply list_elem_of_bind in Hit as (an' & Hit & Han).
    apply list_elem_of_bind in Hit as (e & Hit & He).
    apply list_elem_of_singleton in Hit as [= -> -> -> ->]. done.
  - intros (m & Hm & Hp & Han & Hf). exists m. split; [|done].
    apply list_elem_of_bind. exists (pn, p). split; [|done].
    apply list_elem_of_bind. exists an. split; [|done].
    apply list_elem_of_bind. exists (fn, f). split; [|done].
    by apply list_elem_of_singleton.
Qed.

End more_proofs.

Section loop_order_proofs.
Context {S T : Type}.
Implicit Types (self : ParameterStatistics S T) (st : pass).
Implicit Types (d : gmap string value) (t : tensor) (v : value).
Implicit Types (it : iteration).

Lemma items_of_NoDup key v : NoDup (items_of key v).*1.
Proof.
  rw -keys_of_items. destruct v as [|t|]; simpl; try apply NoDup_singleton.
  case_bool_decide; [apply indexed_keys_NoDup|apply NoDup_singleton].
Qed.

(** What an iteration that returns has done. *)
Lemma iterate_Ok self it s s' :
  iterate self it s = Ok s' ↔
  ∃ items,
    iteration_items self it = Some items ∧
    s' = {| statistics := dict_update (statistics s) items;
            applied := applied s ++ option_list (application self it) |}.
Proof.
  destruct it as [[[pn p] an] [fn f]].
  unfold iterate, iteration_items, application, iteration_params,
    iteration_key. simpl. rw loop_body_Ok. split.
  - intros (t & v & -> & Hv & ->). simpl. rw Hv. eexists. split; [done|].
    rw store_items. f_equal.
    destruct (_skip_nan_params self && isnan_any (flatten t)); simpl;
      by rw ?app_nil_r.
  - destruct (getattr p an) as [[t|]|]; simpl; try by intros (? & [=] & _).
    destruct (value_of _ f (flatten t)) as [v|] eqn:Hv;
      [|by intros (? & [=] & _)].
    intros (items & [= <-] & ->). exists t, v. split_and!; [done..|].
    rw store_items. f_equal.
    destruct (_skip_nan_params self && isnan_any (flatten t)); simpl;
      by rw ?app_nil_r.
Qed.

Lemma for_each_applied self its s s' :
  for_each its (iterate self) s = Ok s' →
  applied s' = applied s ++ omap (application self) its.
Proof.
  revert s. induction its as [|it its IH]; intros s.
  - intros [= <-]. by rw app_nil_r.
  - simpl. intros (s1 & (items & _ & ->)%iterate_Ok & Hrest)%bind_Ok.
    rw (IH _ Hrest). simpl. rw -app_assoc. f_equal.
    by destruct (application self it).
Qed.

Lemma length_iterations self ms :
  length (iterations self ms)
  = sum_list (length <$> ms) * length (_attrs self)
    * length (_statistics self).
Proof.
  assert (∀ {A B} (l : list A) (f : A → list B) n,
    (∀ x, length (f x) = n) → length (l ≫= f) = length l * n) as Hbind.
  { intros A B l f n Hf. induction l as [|x l IH]; [done|].
    rw bind_cons length_app Hf IH. simpl. lia. }
  unfold iterations. induction ms as [|m ms IH]; [done|].
  rw bind_cons length_app IH. simpl.
  unfold module_iterations.
  rw (Hbind _ _ m _ (length (_attrs self) * length (_statistics self))).
  - intros np. apply Hbind. intros an.
    rw (Hbind _ _ _ _ 1); [done|lia].
  - by rw !Nat.mul_add_distr_r Nat.mul_assoc.
Qed.

(** X1.  The functions are applied in the order of the loops (links, then
    named parameters, then attributes, then registry entries), once per
    iteration, except where [skip_nan_params] finds a NaN; without
    [skip_nan_params] a pass that returns has made one application per
    parameter, attribute and registry entry. *)
Theorem applications_in_loop_order self ms st :
  _links self = Link <$> ms → collect self = Ok st →
  applied st = omap (application self) (iterations self ms) ∧
  (_skip_nan_params self = false →
   length (applied st)
   = sum_list (length <$> ms) * length (_attrs self)
     * length (_statistics self)).
Proof.
  intros Hlinks Hrun. rw (collect_iterations _ _ Hlinks) in Hrun.
  pose proof (for_each_applied _ _ _ _ Hrun) as Happ. simpl in Happ.
  split; [done|]. intros Hskip. rw Happ -length_iterations.
  clear Happ.
  assert (∀ it, it ∈ iterations self ms → is_Some (application self it))
    as Hsome.
  { intros it Hit.
    destruct (list_elem_of_split _ _ Hit) as (before & after & Hsplit).
    rw Hsplit for_each_app in Hrun.
    apply bind_Ok in Hrun as (s1 & _ & Hrun). simpl in Hrun.
    apply bind_Ok in Hrun as (s2 & (items & Hitems & _)%iterate_Ok & _).
    unfold iteration_items in Hitems. unfold application.
    destruct (iteration_params it); [|done]. simpl. by rw Hskip. }
  clear Hrun. revert Hsome. generalize (iterations self ms).
  intros its. induction its as [|it its IH]; intros Hsome; [done|].
  simpl. destruct (Hsome it) as [a ->]; [by left|]. simpl. f_equal.
  apply IH. intros ??. apply Hsome. by right.
Qed.

(** X2.  When several iterations write a key, the last one in the order of
    the loops wins: an entry written by an iteration is in the mapping of
    the pass when no later iteration writes its key. *)
Theorem last_write_wins self ms st before it after items k x :
  _links self = Link <$> ms → collect self = Ok st →
  iterations self ms = before ++ it :: after →
  iteration_items self it = Some items → (k, x) ∈ items →
  (∀ it' items', it' ∈ after → iteration_items self it' = Some items' →
     k ∉ items'.*1) →
  statistics st !! k = Some x.
Proof.
  intros Hlinks Hrun Hsplit Hitems Hkx Hafter.
  rw (collect_iterations _ _ Hlinks) Hsplit for_each_app in Hrun.
  apply bind_Ok in Hrun as (s1 & _ & Hrun). simpl in Hrun.
  apply bind_Ok in Hrun as (s2 & (items' & Hitems' & ->)%iterate_Ok & Hrun).
  rw Hitems in Hitems'. injection Hitems' as <-.
  revert Hrun. apply (for_each_inv (λ s, statistics s !! k = Some x)).
  - intros it' s3 s4 Hit' Hs3 (items' & Hitems' & ->)%iterate_Ok. simpl.
    rw lookup_dict_update_notin; [by eapply Hafter|done].
  - simpl. apply lookup_dict_update_in; [|done].
    unfold iteration_items in Hitems.
    destruct (iteration_params it); [|done]. simpl in Hitems.
    destruct (value_of _ _ _); [|done]. injection Hitems as <-.
    apply items_of_NoDup.
Qed.

End loop_order_proofs.

(** ** Returning and raising *)

Section returning.
Context {S T : Type}.
Implicit Types (self : ParameterStatistics S T) (st : pass).

Lemma for_each_Ok_elem {A St} (xs : list A) (body : A → St → result St)
    s s' x :
  for_each xs body s = Ok s' → x ∈ xs → ∃ s1 s2, body x s1 = Ok s2.
Proof.
  revert s. induction xs as [|y xs IH]; intros s Hrun Hx;
    [by apply elem_of_nil in Hx|].
  simpl in Hrun. apply bind_Ok in Hrun as (s1 & Hy & Hrun).
  apply elem_of_cons in Hx as [->|Hx]; [by exists s, s1|by eapply IH].
Qed.

(** X3.  When a pass returns: exactly when every link is a module and, at
    every iteration of the innermost loop (a named parameter of a link, a
    scanned attribute and a registry entry), the attribute is a tensor and
    the function returns on its flattened tensor (with [skip_nan_params], a
    function need not return on a tensor with a NaN).  Where there is no
    iteration (an empty registry, no attribute scanned) nothing is asked of
    the parameters: a gradient may be [None]. *)
Theorem pass_returns_iff self :
  (∃ st, collect self = Ok st) ↔
  links_ok self ∧
  ∀ pn p an fn f, visited self pn p an fn f →
    ∃ t v, getattr p an = Ok (Some t) ∧
           value_of (_skip_nan_params self) f (flatten t) = Ok v.
Proof.
  split.
  - intros [st Hrun]. split.
    + intros l Hl. unfold collect in Hrun.
      destruct (for_each_Ok_elem _ _ _ _ _ Hrun Hl) as (s1 & s2 & Hlink).
      destruct l as [m|items]; [by exists m|done].
    + intros pn p an fn f Hvis.
      destruct (collect_keys self st pn p an fn f Hrun Hvis)
        as (t & v & _ & _ & Hget & Hv & _).
      by exists t, v.
  - intros [Hlinks Hvalues]. apply collect_total; [done|].
    intros pn p an fn f st1 Hvis.
    destruct (Hvalues pn p an fn f Hvis) as (t & v & Hget & Hv).
    eexists. apply loop_body_Ok. by exists t, v.
Qed.

End returning.

Section errors.
Context {S Spec T Mgr : Type}.
Context `{!DictSummary S, !TriggerModule Spec T Mgr}.
Implicit Types (self : ParameterStatistics S T) (st : pass).
Implicit Types (t : tensor) (v : value).

(** A loop that raises raises in one of its iterations. *)
Lemma for_each_Raise {A St} (xs : list A) (body : A → St → result St) s e :
  for_each xs body s = Raise e → ∃ x s1, x ∈ xs ∧ body x s1 = Raise e.
Proof.
  revert s. induction xs as [|x xs IH]; intros s; [done|].
  simpl. destruct (body x s) as [s1|e'] eqn:Hx; simpl.
  - intros (y & s2 & Hy & Hbody)%IH. exists y, s2. split; [by right|done].
  - intros [= ->]. exists x, s. split; [by left|done].
Qed.

Lemma loop_body_Raise self pn p an fn f st e :
  loop_body self pn p an (fn, f) st = Raise e →
  (e = AttributeError ∧ (getattr p an = Ok None ∨ getattr p an = Raise e)) ∨
  ∃ t, getattr p an = Ok (Some t) ∧
       _skip_nan_params self && isnan_any (flatten t) = false ∧
       f (flatten t) = Raise e.
Proof.
  unfold loop_body, compute_value.
  destruct (getattr p an) as [[t|]|e'] eqn:Hget; simpl.
  - destruct (_skip_nan_params self && isnan_any (flatten t)) eqn:Hskip;
      [done|].
    destruct (f (flatten t)) as [v|e'] eqn:Hf; [done|].
    intros [= ->]. right. by exists t.
  - intros [= <-]. left. split; [done|by left].
  - intros [= ->]. left. split; [|by right].
    unfold getattr in Hget. repeat case_decide; congruence.
Qed.

Lemma collect_Raise_inv self e :
  collect self = Raise e →
  (e = AttributeError ∧ ∃ items, NotALink items ∈ _links self) ∨
  (e = AttributeError ∧
   ∃ pn p an fn f, visited self pn p an fn f ∧
                   (getattr p an = Ok None ∨ getattr p an = Raise e)) ∨
  (∃ pn p an fn f t,
     visited self pn p an fn f ∧ getattr p an = Ok (Some t) ∧
     _skip_nan_params self && isnan_any (flatten t) = false ∧
     f (flatten t) = Raise e).
Proof.
  unfold collect. intros (l & s1 & Hl & Hlink)%for_each_Raise.
  destruct l as [m|items]; [|injection Hlink as <-; left; eauto].
  right. unfold collect_link in Hlink. simpl in Hlink.
  apply for_each_Raise in Hlink as ([pn p] & s2 & Hp & Hparam).
  apply for_each_Raise in Hparam as (an & s3 & Han & Hattr).
  apply for_each_Raise in Hattr as ([fn f] & s4 & Hf & Hbody).
  assert (visited self pn p an fn f) as Hvis by by exists m.
  apply loop_body_Raise in Hbody as [[-> Hget]|(t & Hget & Hskip & Hraise)].
  - left. split; [done|]. by exists pn, p, an, fn, f.
  - right. by exists pn, p, an, fn, f, t.
Qed.

(** X4.  Where the exception of a pass comes from: a link that is no
    module, an attribute that is [None] (or not there), or a statistic
    function applied to the flattened tensor of a scanned attribute.  The
    invocation then raises that exception: the pass comes first, so the
    summary, the trigger and the reporter are not reached. *)
Theorem pass_raises_origin self e :
  collect self = Raise e →
  (∀ manager reported, __call__ self manager reported = Raise e) ∧
  ((e = AttributeError ∧ ∃ items, NotALink items ∈ _links self) ∨
   (e = AttributeError ∧
    ∃ pn p an fn f, visited self pn p an fn f ∧
                    (getattr p an = Ok None ∨ getattr p an = Raise e)) ∨
   (∃ pn p an fn f t,
      visited self pn p an fn f ∧ getattr p an = Ok (Some t) ∧
      _skip_nan_params self && isnan_any (flatten t) = false ∧
      f (flatten t) = Raise e)).
Proof.
  intros Hrun. split; [|by apply collect_Raise_inv].
  intros manager reported. by apply call_Raise.
Qed.

(** X5.  A gradient that is [None] where [grad] is scanned makes every invocation
    raise: nothing is added to the summary, the trigger is not consulted and
    nothing is reported.  The exception is the [AttributeError], unless a
    statistic function raised first. *)
Theorem none_grad_raises self pn p fn f :
  visited self pn p "grad" fn f → grad p = None →
  (∀ st, collect self ≠ Ok st) ∧
  (∀ manager reported, ∃ e, __call__ self manager reported = Raise e) ∧
  ((∀ pn' p' an' fn' f' t' e,
      visited self pn' p' an' fn' f' → getattr p' an' = Ok (Some t') →
      f' (flatten t') ≠ Raise e) →
   collect self = Raise AttributeError ∧
   ∀ manager reported,
     __call__ self manager reported = Raise AttributeError).
Proof.
  intros Hvis Hgrad.
  assert (∀ st, collect self ≠ Ok st) as Hnot.
  { intros st Hrun.
    destruct (collect_keys self st pn p "grad" fn f Hrun Hvis)
      as (t & _ & _ & _ & Hget & _).
    unfold getattr in Hget. simpl in Hget. by rw Hgrad in Hget. }
  split_and!; [done| |].
  - intros manager reported. destruct (collect self) as [st|e] eqn:Hrun.
    + by destruct (Hnot st).
    + exists e. by apply call_Raise.
  - intros Htotal.
    assert (collect self = Raise AttributeError) as Hraise.
    { destruct (collect self) as [st|e] eqn:Hrun; [by destruct (Hnot st)|].
      apply collect_Raise_inv in Hrun
        as [[-> _]|[[-> _]|(pn' & p' & an' & fn' & f' & t' & ? & ? & _ & Hf)]];
        [done..|].
      by destruct (Htotal pn' p' an' fn' f' t' e). }
    split; [done|]. intros manager reported. by apply call_Raise.
Qed.

End errors.

(** ** Prefix and [skip_nan_params] *)

Section renaming.
Context {S T : Type}.
Implicit Types (self : ParameterStatistics S T) (st : pass).
Implicit Types (d : gmap string value) (t : tensor) (v : value).

Lemma for_each_fmap {A St} (g : St → St) (xs : list A)
    (body1 body2 : A → St → result St) s :
  (∀ x s, x ∈ xs → body2 x (g s) = g <$> body1 x s) →
  for_each xs body2 (g s) = g <$> for_each xs body1 s.
Proof.
  revert s. induction xs as [|x xs IH]; intros s Hbody; [done|].
  simpl. rw Hbody; [by left|].
  destruct (body1 x s) as [s'|e]; [|done]. simpl.
  apply IH. intros ???. apply Hbody. by right.
Qed.

Lemma dict_update_kmap (f : string → string) `{!Inj (=) (=) f} d items :
  dict_update (kmap f d) (prod_map f id <$> items)
  = kmap f (dict_update d items).
Proof.
  induction items as [|[k v] items IH] using rev_ind; [done|].
  rw fmap_app /= !dict_update_snoc IH. by rw kmap_insert.
Qed.

Lemma indexed_items_app pre key t :
  indexed_items (pre +:+ key) t
  = prod_map (String.app pre) id <$> indexed_items key t.
Proof.
  unfold indexed_items. rw fmap_imap. apply imap_ext. intros i row _.
  simpl. unfold indexed_key. by rw string_app_assoc.
Qed.

Lemma store_kmap pre key v d :
  store (pre +:+ key) v (kmap (String.app pre) d)
  = kmap (String.app pre) (store key v d).
Proof.
  rw !store_items.
  assert (items_of (pre +:+ key) v
          = prod_map (String.app pre) id <$> items_of key v) as ->.
  { destruct v as [|t|]; simpl; try done.
    case_bool_decide; [apply indexed_items_app|done]. }
  apply dict_update_kmap. apply _.
Qed.

(** X6.  A prefix only renames the keys: the pass with the prefix [p] is the
    pass without prefix with [p/] put before every key. *)
Theorem prefix_renames_keys self p :
  p ≠ "" →
  collect (with_prefix self (Some p))
  = rename_keys (String.app (p +:+ "/")) <$> collect (with_prefix self None).
Proof.
  intros Hp. unfold collect. simpl.
  set (g := rename_keys (String.app (p +:+ "/"))).
  assert (empty_pass = g empty_pass) as ->.
  { unfold g, rename_keys, empty_pass. simpl. by rw kmap_empty. }
  apply for_each_fmap. intros l s _.
  unfold collect_link. destruct (named_parameters l) as [m|]; [|done]. simpl.
  apply for_each_fmap. intros [pn q] s1 _. unfold collect_param. simpl.
  apply for_each_fmap. intros an s2 _.
  apply for_each_fmap. intros [fn f] s3 _.
  unfold loop_body. simpl.
  destruct (getattr q an) as [[t|]|]; simpl; try done.
  destruct (compute_value _ fn f (flatten t) (applied s3)) as [[v a]|];
    simpl; [|done].
  unfold g, rename_keys. simpl. do 2 f_equal.
  rw decide_False //. unfold report_key_template.
  rw (string_app_assoc p "/"). rw -store_kmap. f_equal.
  by rw !string_app_assoc.
Qed.


End renaming.

(** ** The keys of a pass *)

Section keys.
Context {S T : Type}.
Implicit Types (self : ParameterStatistics S T) (st : pass).
Implicit Types (d : gmap string value) (t : tensor) (v : value).

Lemma split_at_sep (c : ascii) (a a' b b' : list ascii) :
  c ∉ a → c ∉ a' → a ++ c :: b = a' ++ c :: b' → a = a' ∧ b = b'.
Proof.
  revert a'. induction a as [|x a IH]; intros [|x' a'] Ha Ha'; simpl.
  - by intros [= ->].
  - intros [= -> _]. destruct Ha'. by left.
  - intros [= -> _]. destruct Ha. by left.
  - intros [= -> Heq]. apply IH in Heq as [-> ->]; [done|..].
    + intros ?. apply Ha. by right.
    + intros ?. apply Ha'. by right.
Qed.

Lemma string_split_at_sep c a a' b b' :
  c ∉ chars a → c ∉ chars a' →
  a +:+ String c b = a' +:+ String c b' → a = a' ∧ b = b'.
Proof.
  intros Ha Ha' Heq. apply (f_equal chars) in Heq. rw !chars_app /= in Heq.
  apply split_at_sep in Heq as [?%chars_inj ?%chars_inj]; done.
Qed.

Lemma report_key_template_inj prefix pn an fn pn' an' fn' :
  "/"%char ∉ chars pn → "/"%char ∉ chars pn' →
  an ∈ ["data"; "grad"] → an' ∈ ["data"; "grad"] →
  report_key_template prefix pn an fn = report_key_template prefix pn' an' fn' →
  pn = pn' ∧ an = an' ∧ fn = fn'.
Proof.
  intros Hpn Hpn' Han Han' Hkey. unfold report_key_template in Hkey.
  assert (∀ a, a ∈ ["data"; "grad"] → "/"%char ∉ chars a) as Hattr.
  { intros a [->|[->|[]%elem_of_nil]%elem_of_cons]%elem_of_cons;
      simpl; set_solver. }
  apply (inj (String.app prefix)) in Hkey.
  apply (string_split_at_sep "/") in Hkey as [-> Hkey]; [|done..].
  apply (string_split_at_sep "/") in Hkey as [-> ->]; [done|by apply Hattr..].
Qed.

(** X8.  With parameter names free of [/], the report key tells apart the
    parameter name, the attribute and the function name of the iterations of
    an extension. *)
Theorem report_keys_distinct self report_params report_grads
    pn p an fn f pn' p' an' fn' f' :
  _attrs self = select_attrs report_params report_grads →
  visited self pn p an fn f → visited self pn' p' an' fn' f' →
  "/"%char ∉ chars pn → "/"%char ∉ chars pn' →
  report_key_template (prefix_arg (_prefix self)) pn an fn
  = report_key_template (prefix_arg (_prefix self)) pn' an' fn' →
  pn = pn' ∧ an = an' ∧ fn = fn'.
Proof.
  intros Hattrs (_ & _ & _ & Han & _) (_ & _ & _ & Han' & _) Hpn Hpn'.
  rw Hattrs in Han Han'.
  apply report_key_template_inj; [done..| |];
    unfold select_attrs in *; destruct report_params, report_grads;
    set_solver.
Qed.

Lemma NoDup_fst_agree {A B} (l : list (A * B)) x y1 y2 :
  NoDup l.*1 → (x, y1) ∈ l → (x, y2) ∈ l → y1 = y2.
Proof.
  induction l as [|[x' y'] l IH]; [by intros _ ?%elem_of_nil|].
  rw fmap_cons NoDup_cons /=. intros [Hx' Hl] H1 H2.
  assert (∀ y, (x', y) ∈ l → False) as Hnot.
  { intros y Hy. apply Hx'. apply list_elem_of_fmap. by exists (x', y). }
  apply elem_of_cons in H1 as [H1|H1], H2 as [H2|H2]; simplify_eq.
  - done.
  - by destruct (Hnot y2).
  - by destruct (Hnot y1).
  - by apply IH.
Qed.

(** X9.  With parameter names that are distinct and free of [/], distinct
    registry names and functions returning single values, the mapping of a
    pass that returns holds, under each report key, the value computed for
    its parameter, attribute and function, and nothing else. *)
Theorem collect_exact self st :
  collect self = Ok st →
  (∀ m pn p, Link m ∈ _links self → (pn, p) ∈ m → "/"%char ∉ chars pn) →
  (∀ m m' pn p p', Link m ∈ _links self → Link m' ∈ _links self →
     (pn, p) ∈ m → (pn, p') ∈ m' → p = p') →
  NoDup (_statistics self).*1 →
  (∀ pn p an fn f t v,
     visited self pn p an fn f → getattr p an = Ok (Some t) →
     value_of (_skip_nan_params self) f (flatten t) = Ok v →
     is_multi v = false) →
  ∀ key x,
    statistics st !! key = Some x ↔
    ∃ pn p an fn f t,
      visited self pn p an fn f ∧ getattr p an = Ok (Some t) ∧
      value_of (_skip_nan_params self) f (flatten t) = Ok x ∧
      key = report_key_template (prefix_arg (_prefix self)) pn an fn.
Proof.
  intros Hrun Hslash Hparams Hnames Hsingle key x. split.
  - intros Hkey.
    destruct (collect_entries _ _ _ _ Hrun Hkey)
      as (pn & p & an & fn & f & t & v & Hvis & Hget & Hv & Hitem).
    apply elem_of_items_of in Hitem
      as [(_ & -> & ->)|(rows & _ & _ & -> & Hmulti & _)].
    + by exists pn, p, an, fn, f, t.
    + specialize (Hsingle _ _ _ _ _ _ _ Hvis Hget Hv). simpl in Hsingle.
      by rw bool_decide_true in Hsingle.
  - intros (pn & p & an & fn & f & t & Hvis & Hget & Hv & ->).
    apply (collect_lookup self st pn p an fn f t x); [done..| |].
    { apply elem_of_items_of. left.
      split; [by eapply Hsingle|done]. }
    intros pn' p' an' fn' f' t' v' x' Hvis' Hget' Hv' Hitem.
    apply elem_of_items_of in Hitem
      as [(_ & Hkey & ->)|(rows & _ & _ & -> & Hmulti & _)].
    + destruct Hvis as (m & Hm & Hp & Han & Hf).
      destruct Hvis' as (m' & Hm' & Hp' & Han' & Hf').
      apply report_key_template_inj in Hkey as (-> & -> & ->).
      * assert (p' = p) as -> by exact (Hparams _ _ _ _ _ Hm' Hm Hp' Hp).
        assert (f' = f) as -> by exact (NoDup_fst_agree _ _ _ _ Hnames Hf' Hf).
        rw Hget in Hget'. injection Hget' as <-.
        rw Hv in Hv'. by injection Hv' as <-.
      * exact (Hslash _ _ _ Hm Hp).
      * exact (Hslash _ _ _ Hm' Hp').
      * apply getattr_Ok in Hget as [[-> _]|[-> _]]; set_solver.
      * apply getattr_Ok in Hget' as [[-> _]|[-> _]]; set_solver.
    + specialize (Hsingle _ _ _ _ _ _ _ Hvis' Hget' Hv'). simpl in Hsingle.
      by rw bool_decide_true in Hsingle.
Qed.

End keys.

(** ** The registry and the rows of a result *)

Section registry.
Context {S Spec T Mgr : Type}.
Context `{!DictSummary S, !TriggerModule Spec T Mgr, !Torch}.
Implicit Types (self : ParameterStatistics S T) (st : pass).

Lemma dict_setitem_notin {V} (d : list (string * V)) name (w : V) :
  name ∉ d.*1 → dict_setitem d name w = d ++ [(name, w)].
Proof.
  induction d as [|[k u] d IH]; [done|].
  cbn [dict_setitem]. rw fmap_cons not_elem_of_cons. intros [? ?].
  case_decide; [done|]. by rw IH.
Qed.

Lemma dict_foldl_NoDup {V} (acc items : list (string * V)) :
  NoDup (acc ++ items).*1 →
  foldl (λ d kv, dict_setitem d kv.1 kv.2) acc items = acc ++ items.
Proof.
  revert acc. induction items as [|[k w] items IH]; intros acc Hnd.
  - by rw app_nil_r.
  - simpl. rw dict_setitem_notin.
    + rw fmap_app NoDup_app in Hnd. destruct Hnd as (_ & Hdisj & _).
      intros Hk. apply (Hdisj k); [done|]. rw fmap_cons. by left.
    + rw IH; [by rw -app_assoc|]. by rw -app_assoc.
Qed.

Lemma dict_get_app {V} (d1 d2 : list (string * V)) name :
  dict_get (d1 ++ d2) name
  = match dict_get d1 name with
    | Some w => Some w
    | None => dict_get d2 name
    end.
Proof.
  induction d1 as [|[k w] d1 IH]; [done|]. simpl. by case_decide.
Qed.

Lemma dict_get_foldl {V} (acc items : list (string * V)) name :
  dict_get (foldl (λ d kv, dict_setitem d kv.1 kv.2) acc items) name
  = match dict_get (reverse items) name with
    | Some w => Some w
    | None => dict_get acc name
    end.
Proof.
  revert acc. induction items as [|[k w] items IH]; intros acc; [done|].
  simpl. rw IH reverse_cons dict_get_app. simpl.
  destruct (dict_get (reverse items) name); [done|].
  case_decide as Hk.
  - subst. by rw dict_get_setitem.
  - by rw dict_get_setitem_ne.
Qed.

(** X10.  The registry of the constructor is a copy of the mapping given: the
    same entries in the same order.  Given pairs with repeated names, the
    last function given for a name is the one registered.  In every case
    the names of the registry are distinct. *)
Theorem constructor_copies_statistics links items report_params report_grads
    prefix (trigger : Spec) skip_nan_params :
  let self := __init__ links (StatDict items) report_params report_grads
                prefix trigger skip_nan_params in
  (NoDup items.*1 → _statistics self = items) ∧
  (∀ name, dict_get (_statistics self) name = dict_get (reverse items) name) ∧
  NoDup (_statistics self).*1.
Proof.
  intros self. split_and!.
  - intros Hnd. by apply (dict_foldl_NoDup []).
  - intros name. simpl. unfold dict. rw dict_get_foldl.
    by destruct (dict_get (reverse items) name).
  - apply dict_NoDup.
Qed.

Lemma dict_setitem_twice {V} (d : list (string * V)) name (u w : V) :
  dict_setitem (dict_setitem d name u) name w = dict_setitem d name w.
Proof.
  induction d as [|[k x] d IH]; simpl.
  - by rw decide_True.
  - case_decide; simpl; [by rw decide_True|]. rw decide_False //. by rw IH.
Qed.

(** X11.  Registering under a name that is there keeps the order of the names;
    a new name goes last, so that its function is applied after the others;
    registering twice under a name leaves the second function only. *)
Theorem register_statistics_order self name function :
  let names self := (_statistics self).*1 in
  (name ∈ names self →
   names (register_statistics self name function) = names self) ∧
  (name ∉ names self →
   _statistics (register_statistics self name function)
   = _statistics self ++ [(name, function)]) ∧
  (∀ function',
     register_statistics (register_statistics self name function') name
       function
     = register_statistics self name function).
Proof.
  intros names. split_and!.
  - apply dict_setitem_keys_in.
  - apply dict_setitem_notin.
  - intros function'. unfold register_statistics. simpl.
    by rw dict_setitem_twice.
Qed.

(** X12.  With the default statistics the functions are [mean], [std], [min],
    [max] and [zeros], in this order, and every key of a pass ends in one of
    these names or in an index after it; there is no [percentile]. *)
Theorem default_statistics_keys self :
  _statistics self = select_statistics StatDefault →
  (_statistics self).*1 = ["mean"; "std"; "min"; "max"; "zeros"] ∧
  dict_get (_statistics self) "percentile" = None ∧
  ∀ st key x,
    collect self = Ok st → statistics st !! key = Some x →
    ∃ param_name attr_name function_name,
      function_name ∈ ["mean"; "std"; "min"; "max"; "zeros"] ∧
      let base := prefix_arg (_prefix self) +:+ param_name +:+ "/" +:+
                  attr_name +:+ "/" +:+ function_name in
      key = base ∨ ∃ i : nat, key = base +:+ "/" +:+ pretty i.
Proof.
  intros Hdefault.
  assert ((_statistics self).*1 = ["mean"; "std"; "min"; "max"; "zeros"])
    as Hnames by by rw Hdefault.
  split_and!; [done|by rw Hdefault|].
  intros st key x Hrun Hkey.
  destruct (collect_entries _ _ _ _ Hrun Hkey)
    as (pn & p & an & fn & f & t & v & (m & _ & _ & _ & Hf) & _ & _ & Hitem).
  exists pn, an, fn. split.
  - rw -Hnames. apply list_elem_of_fmap. by exists (fn, f).
  - apply elem_of_items_of in Hitem
      as [(_ & -> & _)|(_ & i & _ & _ & _ & _ & -> & _)]; [by left|right].
    by exists i.
Qed.

End registry.

Section rows.
Implicit Types (d : gmap string value) (t : tensor).

Lemma concat_chunks {A} (w n : nat) (l : list A) :
  length l = n * w →
  concat ((λ i, take w (drop (i * w) l)) <$> seq 0 n) = l.
Proof.
  revert l. induction n as [|n IH]; intros l Hl.
  - by destruct l.
  - rw -cons_seq fmap_cons -fmap_S_seq -list_fmap_compose. simpl.
    rw drop_0.
    rw (list_fmap_ext _ (λ i, take w (drop (i * w) (drop w l))) (seq 0 n)).
    { intros j i _. simpl. by rw drop_drop. }
    rw IH; [rw length_drop; lia|]. by rw take_drop.
Qed.

(** X13.  The rows stored for a tensor of more than one element hold, read in the
    order of their indices, all its elements: nothing is lost or repeated.
    Each row has the shape of the tensor without its first dimension. *)
Theorem rows_partition key t d n rest :
  tensor_wf t → shape t = n :: rest → 1 < numel t →
  length (iter_tensor t) = n ∧
  concat (elems <$> iter_tensor t) = elems t ∧
  (∀ i row, iter_tensor t !! i = Some row →
     shape row = rest ∧ tensor_wf row ∧
     store key (VTensor t) d !! indexed_key key i = Some (VTensor row)).
Proof.
  intros Hwf Hshape Hnumel.
  assert (length (elems t) = n * prod_list rest) as Hlen.
  { rw Hwf. unfold numel. by rw Hshape. }
  destruct (store_rows key t d Hnumel) as [Hrows _].
  split_and!.
  - by apply (length_iter_tensor t n rest).
  - unfold iter_tensor. rw Hshape -list_fmap_compose.
    by apply concat_chunks.
  - intros i row Hrow. split_and!; [..|by apply Hrows].
    + pose proof (lookup_lt_Some _ _ _ Hrow) as Hi.
      rw (length_iter_tensor t n rest Hshape) in Hi.
      rw (iter_tensor_lookup t n rest i Hshape Hi) in Hrow.
      by injection Hrow as <-.
    + pose proof (lookup_lt_Some _ _ _ Hrow) as Hi.
      rw (length_iter_tensor t n rest Hshape) in Hi.
      rw (iter_tensor_lookup t n rest i Hshape Hi) in Hrow.
      injection Hrow as <-. unfold tensor_wf, numel. simpl.
      rw length_take length_drop. nia.
Qed.

End rows.

(** * Examples *)





Lemma nan_params_skipped_witness :
  let self := sample_stats (OneLink [("W", sample_Wnan)])
                [("f", sample_raise)] false None 1 true in
  _skip_nan_params self = true ∧
  getattr sample_Wnan "data" = Ok (Some (data sample_Wnan)) ∧
  isnan_any (flatten (data sample_Wnan)) = true ∧
  loop_body self "W" sample_Wnan "data" ("f", sample_raise) empty_pass
  = Ok {| statistics := {["W/data/f" := VFloat S754_nan]}; applied := [] |}.
Proof.
  intros self.
  assert (_skip_nan_params self = true) as Hskip by reflexivity.
  assert (getattr sample_Wnan "data" = Ok (Some (data sample_Wnan))) as Hget
    by reflexivity.
  assert (isnan_any (flatten (data sample_Wnan)) = true) as Hnan
    by reflexivity.
  split; [exact Hskip|]. split; [exact Hget|]. split; [exact Hnan|].
  exact (proj1 (nan_params_skipped self "W" sample_Wnan "data" "f"
                  sample_raise (data sample_Wnan) empty_pass Hskip Hget) Hnan).
Defined.

(** Two invocations with a trigger firing every second invocation: nothing
    is reported at the first, the means over both at the second. *)
Lemma report_on_trigger_witness :
  let self := sample_stats (OneLink [("W", sample_W)])
                [("mean", sample_mean)] false None 2 false in
  let self1 : ParameterStatistics (gmap string (spec_float * Z)) (nat * nat) :=
    {| _links := [Link [("W", sample_W)]];
       _statistics := [("mean", sample_mean)];
       _attrs := ["data"]; _prefix := None; _trigger := (2, 1);
       _summary := {["W/data/mean" := (f64 2, 1%Z)]};
       _skip_nan_params := false |} in
  let links := [Link [("W", sample_W4)]] in
  let st := {| statistics :=
                 {["W/data/mean" := VFloat (f64_div (f64 5) (f64 2))]};
               applied := [("mean", flatten (data sample_W4))] |} in
  run self [([Link [("W", sample_W)]], ())] [] = Ok (self1, []) ∧
  fires (_trigger self) [()] = [false] ∧
  collect (with_links self1 links) = Ok st ∧
  ∃ self2,
    __call__ (with_links self1 links) () []
    = Ok (self2, [ {["W/data/mean" := VFloat (f64_div (f64 9) (f64 4))]} ]) ∧
    _summary self2 = ∅.
Proof.
  intros self self1 links st.
  assert (run self [([Link [("W", sample_W)]], ())] [] = Ok (self1, []))
    as Hrun by reflexivity.
  assert (fires (_trigger self) [([Link [("W", sample_W)]], ())].*2
          = replicate 1 false) as Hquiet by reflexivity.
  assert (collect (with_links self1 links) = Ok st) as Hst by reflexivity.
  split; [exact Hrun|]. split; [exact Hquiet|]. split; [exact Hst|].
  destruct (report_on_trigger self _ links () [] self1 [] st Hrun Hquiet Hst)
    as (_ & self2 & reported2 & Hcall & _ & Hfired).
  assert ((trigger_call (_trigger self1) ()).1 = true) as Hfire by reflexivity.
  rw Hfire in Hfired. destruct Hfired as [-> Hsummary].
  exists self2. split; [|exact Hsummary].
  rw Hcall. vm_compute. reflexivity.
Defined.

(** With [skip_nan_params], the entry of a function registered later holds
    the float NaN for a parameter with a NaN: the function, which would
    return [2.0], is not applied. *)
Lemma register_statistics_nan_counterexample :
  let self := register_statistics
                (sample_stats (OneLink [("W", sample_Wnan)]) [] false None 1
                   true)
                "count" sample_count in
  sample_count (flatten (data sample_Wnan)) = Ok (VFloat (f64 2)) ∧
  collect self
  = Ok {| statistics := {["W/data/count" := VFloat S754_nan]};
          applied := [] |}.
Proof. split; reflexivity. Qed.

Lemma register_statistics_effective_witness :
  let self := sample_stats (OneLink [("W", sample_W)])
                [("mean", sample_mean)] false None 1 false in
  let self' := register_statistics self "count" sample_count in
  let st := {| statistics := {[ "W/data/mean" := VFloat (f64 2);
                                "W/data/count" := VFloat (f64 2) ]};
               applied := [("mean", flatten (data sample_W));
                           ("count", flatten (data sample_W))] |} in
  dict_get (_statistics self') "count" = Some sample_count ∧
  dict_get (_statistics self') "mean" = Some sample_mean ∧
  collect self' = Ok st ∧
  "W/data/count" ∈ dom (statistics st).
Proof.
  intros self self' st.
  destruct (register_statistics_effective self "count" sample_count)
    as (Hget & Hother & _ & _ & Hlater).
  split; [exact Hget|]. split; [exact (Hother "mean" ltac:(discriminate))|].
  assert (collect self' = Ok st) as Hrun by reflexivity.
  split; [exact Hrun|].
  destruct (Hlater st [("W", sample_W)] "W" sample_W "data" Hrun)
    as (t & v & st1 & st2 & Ht & Hv & _ & _ & Hsingle & _);
    [by left..|].
  injection Ht as <-. simpl in Hv. destruct Hv as [Hv _].
  injection Hv as <-. exact (Hsingle eq_refl).
Defined.

(** With [report_params=True], [report_grads=False] and the prefix
    [a/grad], the key of the mean of [W] contains [/grad/]. *)
Lemma grad_in_prefix_counterexample :
  let self := sample_stats (OneLink [("W", sample_W)])
                [("mean", sample_mean)] false (Some "a/grad") 1 false in
  _attrs self = select_attrs true false ∧
  collect self
  = Ok {| statistics := {["a/grad/W/data/mean" := VFloat (f64 2)]};
          applied := [("mean", flatten (data sample_W))] |} ∧
  contains "/grad/" "a/grad/W/data/mean".
Proof.
  split_and!; [reflexivity..|]. by exists "a", "W/data/mean".
Qed.

Lemma attrs_from_flags_witness :
  let self := sample_stats (OneLink [("W", sample_W)])
                [("mean", sample_mean)] false None 1 false in
  let st := {| statistics := {["W/data/mean" := VFloat (f64 2)]};
               applied := [("mean", flatten (data sample_W))] |} in
  _attrs self = select_attrs true false ∧
  ("data" ∈ _attrs self ∧ "grad" ∉ _attrs self) ∧
  collect self = Ok st ∧
  statistics st !! "W/data/mean" = Some (VFloat (f64 2)) ∧
  ¬ contains "/grad/" "W/data/mean".
Proof.
  intros self st.
  assert (_attrs self = select_attrs true false) as Hattrs by reflexivity.
  assert (collect self = Ok st) as Hrun by reflexivity.
  assert (statistics st !! "W/data/mean" = Some (VFloat (f64 2))) as Hkey
    by reflexivity.
  destruct (attrs_from_flags self true false Hattrs) as (Hscan & Hdata & _).
  split; [exact Hattrs|]. split.
  { split; [apply Hscan; by left|].
    intros [[[=] _]|[_ [=]]]%Hscan. }
  split; [exact Hrun|]. split; [exact Hkey|]. intros Hgrad.
  destruct (Hdata eq_refl eq_refl st _ _ Hrun Hkey)
    as (m & pn & p & fn & f & Hm & Hp & Hf & _ & Hparts).
  change (Link m ∈ [Link [("W", sample_W)]]) in Hm.
  apply list_elem_of_singleton in Hm as [= ->].
  apply list_elem_of_singleton in Hp as [= -> _].
  change ((fn, f) ∈ [("mean", sample_mean)]) in Hf.
  apply list_elem_of_singleton in Hf as [= -> _].
  destruct (Hparts Hgrad) as [(? & [=] & _)|[Hc|Hc]].
  - apply (contains_missing "grad" "W" "g"%char) in Hc; [done|set_solver..].
  - apply (contains_missing "grad" "mean" "g"%char) in Hc;
      [done|set_solver..].
Defined.

Lemma empty_registry_empty_mapping_witness :
  let self : ParameterStatistics (gmap string (spec_float * Z)) (nat * nat) :=
    __init__ (ListOf [[("W", sample_Wnan)]; [("W", sample_W)]]) StatNone
      true true (Some "model") 1 false in
  (StatNone = StatNone ∨ StatNone = StatDict []) ∧
  _statistics self = [] ∧
  collect self = Ok empty_pass.
Proof.
  intros self.
  assert (StatNone = StatNone ∨ StatNone = StatDict []) as Hnone by by left.
  destruct (empty_registry_empty_mapping StatNone
              (ListOf [[("W", sample_Wnan)]; [("W", sample_W)]])
              true true (Some "model") 1 false Hnone)
    as (Hempty & _ & Hruns).
  split; [exact Hnone|]. split; [exact Hempty|].
  apply Hruns. discriminate.
Defined.

(** An iterable of links that is neither a list, nor a tuple, nor a module
    (a generator, a set) is kept whole as a single link, and every
    invocation raises; the same module in a list is walked, and so is a
    module that is itself iterable, through its own [named_parameters]. *)
Lemma iterable_links_counterexample :
  let m := [("W", sample_W)] in
  let self := sample_stats (IterableOf [m]) [("mean", sample_mean)] false
                None 1 false in
  let st := {| statistics := {["W/data/mean" := VFloat (f64 2)]};
               applied := [("mean", flatten (data sample_W))] |} in
  _links self = [NotALink [m]] ∧
  collect self = Raise AttributeError ∧
  __call__ self () [] = Raise AttributeError ∧
  collect (sample_stats (ListOf [m]) [("mean", sample_mean)] false None 1
             false)
  = Ok st ∧
  collect (sample_stats (IterableModule m [[("b", sample_W4)]])
             [("mean", sample_mean)] false None 1 false)
  = Ok st.
Proof. split_and!; reflexivity. Qed.



Lemma empty_prefix_is_no_prefix_witness :
  let with_empty := sample_stats (OneLink [("W", sample_W)])
                      [("mean", sample_mean)] false (Some "") 1 false in
  let with_none := sample_stats (OneLink [("W", sample_W)])
                     [("mean", sample_mean)] false None 1 false in
  let st := {| statistics := {["W/data/mean" := VFloat (f64 2)]};
               applied := [("mean", flatten (data sample_W))] |} in
  collect with_empty = collect with_none ∧
  collect with_empty = Ok st ∧
  ∀ key rest, key ∈ dom (statistics st) → key ≠ String "/" rest.
Proof.
  intros with_empty with_none st.
  destruct (empty_prefix_is_no_prefix (OneLink [("W", sample_W)])
              (StatDict [("mean", sample_mean)]) true false 1 false)
    as (Hsame & _ & _ & Hkeys).
  assert (collect with_empty = Ok st) as Hrun by reflexivity.
  split; [exact Hsame|]. split; [exact Hrun|].
  destruct (Hkeys st Hrun) as (_ & _ & Hslash). apply Hslash.
  intros m pn p Hm Hp.
  apply list_elem_of_singleton in Hm. injection Hm as ->.
  apply list_elem_of_singleton in Hp. injection Hp as -> ->.
  split; [discriminate|]. intros rest'. discriminate.
Defined.

(** ** Examples for the further properties *)

(** One link with [W] and the statistics [mean] and [count]: the functions
    are applied in the order of the registry. *)
Lemma applications_in_loop_order_witness :
  let ms := [[("W", sample_W)]] in
  let self := sample_stats (ListOf ms)
                [("mean", sample_mean); ("count", sample_count)] false None
                1 false in
  let st := {| statistics := {[ "W/data/mean" := VFloat (f64 2);
                                "W/data/count" := VFloat (f64 2) ]};
               applied := [("mean", flatten (data sample_W));
                           ("count", flatten (data sample_W))] |} in
  _links self = Link <$> ms ∧ collect self = Ok st ∧
  applied st = omap (application self) (iterations self ms) ∧
  length (applied st) = 1 * 1 * 2.
Proof.
  intros ms self st.
  assert (_links self = Link <$> ms) as Hlinks by reflexivity.
  assert (collect self = Ok st) as Hrun by reflexivity.
  destruct (applications_in_loop_order self ms st Hlinks Hrun)
    as [Happ Hlen].
  split; [exact Hlinks|]. split; [exact Hrun|]. split; [exact Happ|].
  exact (Hlen eq_refl).
Defined.

(** Two links with a parameter of the same name: the second one's mean is
    the one in the mapping. *)
Lemma last_write_wins_witness :
  let ms := [[("W", sample_W)]; [("W", sample_W4)]] in
  let self := sample_stats (ListOf ms) [("mean", sample_mean)] false None 1
                false in
  let it1 : iteration := ("W", sample_W, "data", ("mean", sample_mean)) in
  let it2 : iteration := ("W", sample_W4, "data", ("mean", sample_mean)) in
  let x := VFloat (f64_div (f64 5) (f64 2)) in
  let st := {| statistics := {["W/data/mean" := x]};
               applied := [("mean", flatten (data sample_W));
                           ("mean", flatten (data sample_W4))] |} in
  _links self = Link <$> ms ∧ collect self = Ok st ∧
  iterations self ms = [it1] ++ it2 :: [] ∧
  iteration_items self it2 = Some [("W/data/mean", x)] ∧
  statistics st !! "W/data/mean" = Some x.
Proof.
  intros ms self it1 it2 x st.
  assert (_links self = Link <$> ms) as Hlinks by reflexivity.
  assert (collect self = Ok st) as Hrun by reflexivity.
  assert (iterations self ms = [it1] ++ it2 :: []) as Hsplit by reflexivity.
  assert (iteration_items self it2 = Some [("W/data/mean", x)]) as Hitems
    by reflexivity.
  split; [exact Hlinks|]. split; [exact Hrun|]. split; [exact Hsplit|].
  split; [exact Hitems|].
  assert (("W/data/mean", x) ∈ [("W/data/mean", x)]) as Hin
    by apply list_elem_of_here.
  assert (∀ it' (items' : list (string * value)),
            it' ∈ [] → iteration_items self it' = Some items' →
            "W/data/mean" ∉ items'.*1) as Hafter.
  { intros it' items' Hit'. destruct (proj1 (elem_of_nil it') Hit'). }
  exact (last_write_wins self ms st [it1] it2 [] [("W/data/mean", x)]
           "W/data/mean" x Hlinks Hrun Hsplit Hitems Hin Hafter).
Defined.

(** The pass over [W] with [mean] returns. *)
Lemma pass_returns_iff_witness :
  let self := sample_stats (OneLink [("W", sample_W)])
                [("mean", sample_mean)] false None 1 false in
  links_ok self ∧ ∃ st, collect self = Ok st.
Proof.
  intros self.
  assert (links_ok self) as Hlinks.
  { intros l Hl. apply list_elem_of_singleton in Hl. subst l.
    by exists [("W", sample_W)]. }
  split; [exact Hlinks|].
  apply (proj2 (pass_returns_iff self)). split; [exact Hlinks|].
  intros pn p an fn f (m & Hm & Hp & Han & Hf).
  apply list_elem_of_singleton in Hm. injection Hm as ->.
  apply list_elem_of_singleton in Hp. injection Hp as -> ->.
  apply list_elem_of_singleton in Han. subst an.
  apply list_elem_of_singleton in Hf. injection Hf as -> ->.
  exists (data sample_W), (VFloat (f64_mean (elems (data sample_W)))).
  split; reflexivity.
Defined.

(** A statistic function that raises: the pass, and with it the invocation,
    raises what the function raised. *)
Lemma pass_raises_origin_witness :
  let self := sample_stats (OneLink [("W", sample_W)])
                [("f", sample_raise)] false None 1 false in
  let e := FunctionError "called" in
  collect self = Raise e ∧ __call__ self () [] = Raise e.
Proof.
  intros self e.
  assert (collect self = Raise e) as Hrun by reflexivity.
  split; [exact Hrun|].
  exact (proj1 (pass_raises_origin self e Hrun) () []).
Defined.

(** [report_grads=True] over a parameter without gradient. *)
Lemma none_grad_raises_witness :
  let self := sample_stats (OneLink [("W", sample_W)])
                [("mean", sample_mean)] true None 1 false in
  visited self "W" sample_W "grad" "mean" sample_mean ∧
  grad sample_W = None ∧
  ∃ e, __call__ self () [] = Raise e.
Proof.
  intros self.
  assert (visited self "W" sample_W "grad" "mean" sample_mean) as Hvis.
  { exists [("W", sample_W)]. split; [by left|]. split; [by left|].
    split; [right; by left|by left]. }
  assert (grad sample_W = None) as Hgrad by reflexivity.
  split; [exact Hvis|]. split; [exact Hgrad|].
  exact (proj1 (proj2 (none_grad_raises self "W" sample_W "mean" sample_mean
                         Hvis Hgrad)) () []).
Defined.

(** The prefix [model]. *)
Lemma prefix_renames_keys_witness :
  let self := sample_stats (OneLink [("W", sample_W)])
                [("mean", sample_mean)] false None 1 false in
  "model" ≠ "" ∧
  collect (with_prefix self (Some "model"))
  = rename_keys (String.app "model/") <$> collect (with_prefix self None).
Proof.
  intros self.
  assert ("model" ≠ "") as Hp by discriminate.
  split; [exact Hp|]. exact (prefix_renames_keys self "model" Hp).
Defined.


(** Two parameters and two statistics: the keys of [W]'s mean and of [b]'s
    count differ. *)
Lemma report_keys_distinct_witness :
  let self := sample_stats (OneLink [("W", sample_W); ("b", sample_W4)])
                [("mean", sample_mean); ("count", sample_count)] false None
                1 false in
  _attrs self = select_attrs true false ∧
  visited self "W" sample_W "data" "mean" sample_mean ∧
  visited self "b" sample_W4 "data" "count" sample_count ∧
  report_key_template "" "W" "data" "mean"
  ≠ report_key_template "" "b" "data" "count".
Proof.
  intros self.
  assert (_attrs self = select_attrs true false) as Hattrs by reflexivity.
  assert (visited self "W" sample_W "data" "mean" sample_mean) as Hvis.
  { exists [("W", sample_W); ("b", sample_W4)].
    split; [by left|]. split; [by left|]. split; by left. }
  assert (visited self "b" sample_W4 "data" "count" sample_count) as Hvis'.
  { exists [("W", sample_W); ("b", sample_W4)].
    split; [by left|]. split; [right; by left|]. split; [by left|].
    right; by left. }
  split; [exact Hattrs|]. split; [exact Hvis|]. split; [exact Hvis'|].
  intros Hkey.
  destruct (report_keys_distinct self true false _ _ _ _ _ _ _ _ _ _
              Hattrs Hvis Hvis') as ([=] & _); [..|exact Hkey];
    simpl; set_solver.
Defined.

(** The mapping of the pass over [W] with [mean] holds the mean of [W] under
    [W/data/mean]. *)
Lemma collect_exact_witness :
  let self := sample_stats (OneLink [("W", sample_W)])
                [("mean", sample_mean)] false None 1 false in
  let st := {| statistics := {["W/data/mean" := VFloat (f64 2)]};
               applied := [("mean", flatten (data sample_W))] |} in
  collect self = Ok st ∧
  NoDup (_statistics self).*1 ∧
  (statistics st !! "W/data/mean" = Some (VFloat (f64 2)) ↔
   ∃ pn p an fn f t,
     visited self pn p an fn f ∧ getattr p an = Ok (Some t) ∧
     value_of false f (flatten t) = Ok (VFloat (f64 2)) ∧
     "W/data/mean" = report_key_template "" pn an fn).
Proof.
  intros self st.
  assert (collect self = Ok st) as Hrun by reflexivity.
  assert (NoDup (_statistics self).*1) as Hnames by apply NoDup_singleton.
  assert (∀ m pn p, Link m ∈ _links self → (pn, p) ∈ m →
            "/"%char ∉ chars pn) as Hslash.
  { intros m pn p Hm Hp.
    apply list_elem_of_singleton in Hm. injection Hm as ->.
    apply list_elem_of_singleton in Hp. injection Hp as -> ->.
    simpl. set_solver. }
  assert (∀ m m' pn p p', Link m ∈ _links self → Link m' ∈ _links self →
            (pn, p) ∈ m → (pn, p') ∈ m' → p = p') as Hparams.
  { intros m m' pn p p' Hm Hm' Hp Hp'.
    apply list_elem_of_singleton in Hm. injection Hm as ->.
    apply list_elem_of_singleton in Hm'. injection Hm' as ->.
    apply list_elem_of_singleton in Hp. injection Hp as -> ->.
    apply list_elem_of_singleton in Hp'. by injection Hp' as ->. }
  assert (∀ pn p an fn f t v,
            visited self pn p an fn f → getattr p an = Ok (Some t) →
            value_of (_skip_nan_params self) f (flatten t) = Ok v →
            is_multi v = false) as Hsingle.
  { intros pn p an fn f t v (m & _ & _ & _ & Hf) _ Hv.
    apply list_elem_of_singleton in Hf. injection Hf as -> ->.
    by injection Hv as <-. }
  split; [exact Hrun|]. split; [exact Hnames|].
  exact (collect_exact self st Hrun Hslash Hparams Hnames Hsingle
           "W/data/mean" (VFloat (f64 2))).
Defined.

(** A mapping of two statistics is copied as it is. *)
Lemma constructor_copies_statistics_witness :
  let items := [("mean", sample_mean); ("count", sample_count)] in
  let self : ParameterStatistics (gmap string (spec_float * Z)) (nat * nat) :=
    __init__ (OneLink [("W", sample_W)]) (StatDict items) true false None 1
      false in
  NoDup items.*1 ∧ _statistics self = items.
Proof.
  intros items self.
  assert (NoDup items.*1) as Hnames.
  { apply NoDup_cons. split; [|apply NoDup_singleton].
    intros Hin. apply list_elem_of_singleton in Hin. discriminate Hin. }
  split; [exact Hnames|].
  exact (proj1 (constructor_copies_statistics (OneLink [("W", sample_W)])
                  items true false None 1 false) Hnames).
Defined.

(** Registering [count] beside [mean] puts it last. *)
Lemma register_statistics_order_witness :
  let self := sample_stats (OneLink [("W", sample_W)])
                [("mean", sample_mean)] false None 1 false in
  ("count" ∉ (_statistics self).*1) ∧
  _statistics (register_statistics self "count" sample_count)
  = [("mean", sample_mean); ("count", sample_count)].
Proof.
  intros self.
  assert ("count" ∉ (_statistics self).*1) as Hnew.
  { intros Hin. apply list_elem_of_singleton in Hin. discriminate Hin. }
  split; [exact Hnew|].
  exact (proj1 (proj2 (register_statistics_order self "count" sample_count))
           Hnew).
Defined.

(** The extension built with [statistics='default']. *)
Lemma default_statistics_keys_witness :
  let self : ParameterStatistics (gmap string (spec_float * Z)) (nat * nat) :=
    __init__ (OneLink [("W", sample_W)]) StatDefault true false None 1
      false in
  _statistics self = select_statistics StatDefault ∧
  (_statistics self).*1 = ["mean"; "std"; "min"; "max"; "zeros"] ∧
  dict_get (_statistics self) "percentile" = None.
Proof.
  intros self.
  assert (_statistics self = select_statistics StatDefault) as Hdefault
    by reflexivity.
  destruct (default_statistics_keys self Hdefault) as (Hnames & Hnone & _).
  split; [exact Hdefault|]. split; [exact Hnames|exact Hnone].
Defined.

(** A 2x2 result: two rows, which together hold its four elements. *)
Lemma rows_partition_witness :
  let t := {| shape := [2; 2]; elems := [f64 1; f64 2; f64 3; f64 4] |} in
  tensor_wf t ∧ shape t = 2 :: [2] ∧ 1 < numel t ∧
  length (iter_tensor t) = 2 ∧
  concat (elems <$> iter_tensor t) = elems t.
Proof.
  intros t.
  assert (tensor_wf t) as Hwf by reflexivity.
  assert (shape t = 2 :: [2]) as Hshape by reflexivity.
  assert (1 < numel t) as Hn by (vm_compute; lia).
  destruct (rows_partition "k" t ∅ 2 [2] Hwf Hshape Hn) as (Hlen & Hcat & _).
  split; [exact Hwf|]. split; [exact Hshape|]. split; [exact Hn|].
  split; [exact Hlen|exact Hcat].
Defined.
